(** * grapher/graph.py: a shallow embedding and its verification

    The program turns the name occurrences reported by the jedi analysis
    engine into a graph of definitions ([Def]) and references ([Ref]).
    Python [str] is embedded as [string], one [ascii] for each character
    of the text (the characters below 256), Python [int] as [Z], Python
    exceptions as the [Raise] branch of [result], the two [set()] objects of
    [graph] as [gset], and [sys.stderr] as a list of written chunks that is
    threaded through the functions that write to it. *)

From Stdlib Require Import ZArith String Ascii List Lia Bool Permutation Sorted DecimalString.
From stdpp Require Import base gmap sets list strings.

Set Warnings "-clear-no-such-hyp".

Open Scope string_scope.
Open Scope list_scope.
Open Scope Z_scope.

(** ** Python values shared by all the functions *)

Inductive exn : Type :=
| Exception (msg : string)
| TypeError (msg : string)
| ValueError (msg : string)
| AttributeError (msg : string)
| IndexError (msg : string).

Definition str_of_exn (e : exn) : string :=
  match e with
  | Exception m | TypeError m | ValueError m | AttributeError m | IndexError m => m
  end.

Inductive result (A : Type) : Type :=
| Ok (a : A)
| Raise (e : exn).
Arguments Ok {A} a.
Arguments Raise {A} e.

Definition bind {A B : Type} (r : result A) (k : A -> result B) : result B :=
  match r with
  | Ok a => k a
  | Raise e => Raise e
  end.

Notation "'let*' x ':=' r 'in' k" := (bind r (fun x => k))
  (at level 10, x pattern, r at level 100, k at level 200).

(** ** [str] methods *)

Module Str.

Definition len (s : string) : Z := Z.of_nat (String.length s).

(** [s.replace(a, b)] for one-character [a] and [b]. *)
Fixpoint replace (a b : ascii) (s : string) : string :=
  match s with
  | EmptyString => EmptyString
  | String c r => String (if Ascii.eqb c a then b else c) (replace a b r)
  end.

(** [s.split(sep)] for a one-character [sep]: never the empty list. *)
Fixpoint split (sep : ascii) (s : string) : list string :=
  match s with
  | EmptyString => [EmptyString]
  | String c r =>
      if Ascii.eqb c sep then EmptyString :: split sep r
      else match split sep r with
           | [] => [String c EmptyString]
           | w :: ws => String c w :: ws
           end
  end.

(** [sep.join(l)]. *)
Fixpoint join (sep : string) (l : list string) : string :=
  match l with
  | [] => EmptyString
  | [w] => w
  | w :: ws => w +:+ sep +:+ join sep ws
  end.

Definition startswith (s p : string) : bool := String.prefix p s.

Fixpoint endswith_char (s : string) (c : ascii) : bool :=
  match s with
  | EmptyString => false
  | String d EmptyString => Ascii.eqb d c
  | String _ r => endswith_char r c
  end.

(** [s.rstrip(c)]. *)
Fixpoint rstrip (c : ascii) (s : string) : string :=
  match s with
  | EmptyString => EmptyString
  | String d r =>
      match rstrip c r with
      | EmptyString => if Ascii.eqb d c then EmptyString else String d EmptyString
      | r' => String d r'
      end
  end.

(** [(s[:i], s[i:])] with [i = s.rfind(c) + 1]. *)
Fixpoint rcut (c : ascii) (s : string) : string * string :=
  match s with
  | EmptyString => (EmptyString, EmptyString)
  | String d r =>
      match rcut c r with
      | (EmptyString, t) =>
          if Ascii.eqb d c then (String d EmptyString, t)
          else (EmptyString, String d t)
      | (h, t) => (String d h, t)
      end
  end.

(** [(s[:i], s[i:])] with [i = s.rfind(c)], and [None] when [c] does not
    occur. *)
Fixpoint rcut_at (c : ascii) (s : string) : option (string * string) :=
  match s with
  | EmptyString => None
  | String d r =>
      match rcut_at c r with
      | Some (h, t) => Some (String d h, t)
      | None => if Ascii.eqb d c then Some (EmptyString, s) else None
      end
  end.

Fixpoint all_char (c : ascii) (s : string) : bool :=
  match s with
  | EmptyString => true
  | String d r => Ascii.eqb d c && all_char c r
  end.

Definition is_empty (s : string) : bool :=
  match s with EmptyString => true | _ => false end.

Definition of_Z (z : Z) : string :=
  NilZero.string_of_int (Z.to_int z).

End Str.

(** ** [os.path] (posixpath), with the working directory as an argument *)

Module path.

Definition sep : ascii := "/"%char.

Definition isabs (p : string) : bool := Str.startswith p "/".

(** One step of [join(a, *p)]'s loop. *)
Definition join2 (a b : string) : string :=
  if Str.startswith b "/" then b
  else if Str.is_empty a || Str.endswith_char a sep then a +:+ b
  else a +:+ "/" +:+ b.

(** [join(a, *p)]; the call [join()] without arguments is a [TypeError]. *)
Definition join (l : list string) : result string :=
  match l with
  | [] => Raise (TypeError "join() takes at least 1 argument (0 given)")
  | a :: p => Ok (fold_left join2 p a)
  end.

Definition basename (p : string) : string := snd (Str.rcut sep p).

Definition dirname (p : string) : string :=
  let head := fst (Str.rcut sep p) in
  if negb (Str.is_empty head) && negb (Str.all_char sep head)
  then Str.rstrip sep head else head.

(** [splitext(p)]: the extension starts at the last dot of the last
    component, unless only dots come before it there. *)
Definition splitext (p : string) : string * string :=
  let (head, tail) := Str.rcut sep p in
  match Str.rcut_at "."%char tail with
  | Some (stem, ext) =>
      if Str.all_char "."%char stem then (p, EmptyString)
      else (head +:+ stem, ext)
  | None => (p, EmptyString)
  end.

(** The loop of [normpath] over the components. *)
Fixpoint norm_comps (initial_slashes : bool) (comps new_comps : list string)
  : list string :=
  match comps with
  | [] => new_comps
  | comp :: rest =>
      if String.eqb comp "" || String.eqb comp "." then
        norm_comps initial_slashes rest new_comps
      else if negb (String.eqb comp "..")
              || (negb initial_slashes && bool_decide (new_comps = []))
              || match last new_comps with
                 | Some c => String.eqb c ".."
                 | None => false
                 end
      then norm_comps initial_slashes rest (new_comps ++ [comp])
      else norm_comps initial_slashes rest (removelast new_comps)
  end.

Definition normpath (p : string) : string :=
  if Str.is_empty p then "." else
  let initial_slashes : nat :=
    if Str.startswith p "/" then
      if Str.startswith p "//" && negb (Str.startswith p "///") then 2%nat
      else 1%nat
    else 0%nat in
  let comps := norm_comps (negb (Nat.eqb initial_slashes 0))
                          (Str.split sep p) [] in
  let q := Str.join "/" comps in
  let q := match initial_slashes with
           | O => q
           | S O => "/" +:+ q
           | _ => "//" +:+ q
           end in
  if Str.is_empty q then "." else q.

Definition abspath (cwd p : string) : string :=
  if isabs p then normpath p else normpath (join2 cwd p).

Fixpoint commonprefix_len (a b : list string) : nat :=
  match a, b with
  | x :: a', y :: b' => if String.eqb x y then S (commonprefix_len a' b') else O
  | _, _ => O
  end.

Definition nonempty_comps (p : string) : list string :=
  filter (fun x => x <> "") (Str.split sep p).

(** [relpath(p)] with the default [start = curdir]. *)
Definition relpath (cwd p : string) : result string :=
  if Str.is_empty p then Raise (ValueError "no path specified") else
  let start_list := nonempty_comps (abspath cwd ".") in
  let path_list := nonempty_comps (abspath cwd p) in
  let i := commonprefix_len start_list path_list in
  let rel_list :=
    repeat ".." (length start_list - i) ++ drop i path_list in
  match rel_list with
  | [] => Ok "."
  | a :: rest => join (a :: rest)
  end.

End path.

(** A component that [join] appends to what it has. *)
Definition plain (w : string) : Prop := w <> "" /\ Str.startswith w "/" = false.

(** ** Python list indexing and the records of the program *)

Definition nl : string := String "010"%char EmptyString.

(** [l[i]]: a negative index counts from the end. *)
Definition py_getitem {A : Type} (l : list A) (i : Z) : result A :=
  let n := Z.of_nat (length l) in
  let j := if i <? 0 then i + n else i in
  if (j <? 0) || (n <=? j) then Raise (IndexError "list index out of range")
  else match l !! Z.to_nat j with
       | Some x => Ok x
       | None => Raise (IndexError "list index out of range")
       end.

Module Def.
Record t : Type := mk {
  Path : string;
  Kind : string;
  Name : string;
  File : string;
  DefStart : Z;
  DefEnd : Z;
  Exported : bool;
  Docstring : string;
  Data : option string
}.
End Def.

Module Ref.
Record t : Type := mk {
  DefPath : string;
  DefFile : string;
  Def : bool;
  File : string;
  Start : Z;
  End_ : Z;
  ToBuiltin : bool
}.
End Ref.

(** What the analysis engine hands over for one name occurrence: the
    attributes and methods of a jedi definition object that the program
    reads. [parent] is the enclosing scope, [None] where jedi has none to
    give (above a module), in which case [parent()] raises. *)
Module jedi.
#[warnings="-register-all"]
Inductive Name : Type := mkName {
  is_definition : bool;
  type : string;
  name : string;
  line : Z;
  column : Z;
  module_path : string;
  full_name : string;
  parent : option Name;
  docstring : string;
  in_builtin_module : bool
}.

Definition call_parent (n : Name) : result Name :=
  match parent n with
  | Some p => Ok p
  | None => Raise (AttributeError "NoneType object has no attribute name")
  end.
End jedi.

(** ** LineColToOffConverter *)

Module LineColToOffConverter.

(** [__init__]: the table [_cumulative_off]. *)
Definition init (source : string) : list Z :=
  let source_lines := Str.split "010"%char source in
  fold_left
    (fun cumulative_off line =>
       cumulative_off ++ [List.last cumulative_off 0 + Str.len line + 1])
    source_lines [0].

(** [convert] returns an [int], or the pair [(None, message)]. *)
Inductive value : Type :=
| Int (z : Z)
| NoneAnd (msg : string).

Definition convert (_cumulative_off : list Z) (line column : Z) : result value :=
  let line := line - 1 in
  if Z.of_nat (length _cumulative_off) <=? line then
    Ok (NoneAnd ("requested line out of bounds " +:+ Str.of_Z (line + 1) +:+ " > "
                 +:+ Str.of_Z (Z.of_nat (length _cumulative_off) - 1)))
  else
    let* off := py_getitem _cumulative_off line in
    Ok (Int (off + column)).

End LineColToOffConverter.

(** What the table is meant to hold. *)

(** Length of the lines before line [i] (counted from 0), each with its
    line feed. *)
Definition lines_before (source_lines : list string) (i : nat) : Z :=
  foldr (fun line acc => Str.len line + 1 + acc) 0 (take i source_lines).

Fixpoint offsets_from (start : Z) (source_lines : list string) : list Z :=
  match source_lines with
  | [] => []
  | line :: rest => (start + Str.len line + 1) :: offsets_from (start + Str.len line + 1) rest
  end.

(** ** Path resolution *)

Definition supermodule_path (module_path : string) : string :=
  if String.eqb (path.basename module_path) "__init__.py"
  then path.dirname (path.dirname module_path)
  else path.dirname module_path.

Definition filename_to_module_name (filename : string) : string :=
  if String.eqb (path.basename filename) "__init__.py"
  then Str.replace "/" "." (path.dirname filename)
  else Str.replace "/" "." (fst (path.splitext filename)).

(** [for i, cmpt in enumerate(components): if test(cmpt): pIdx = i; break] *)
Fixpoint first_index (test : string -> bool) (components : list string) : option nat :=
  match components with
  | [] => None
  | cmpt :: rest =>
      if test cmpt then Some O
      else match first_index test rest with
           | Some i => Some (S i)
           | None => None
           end
  end.

(** The [while parent.type != 'class'] loop of [full_name_of_def]. *)
Fixpoint enclosing_class (parent : jedi.Name) : result jedi.Name :=
  match parent with
  | jedi.mkName _ type _ _ _ _ _ up _ _ =>
      if String.eqb type "class" then Ok parent
      else match up with
           | Some p => enclosing_class p
           | None => Raise (AttributeError "NoneType object has no attribute name")
           end
  end.

(** The scope [k] levels above [p], and the height of the chain above. *)
Fixpoint ancestor (k : nat) (p : jedi.Name) : option jedi.Name :=
  match k with
  | O => Some p
  | S k =>
      match jedi.parent p with
      | Some q => ancestor k q
      | None => None
      end
  end.

Fixpoint depth (p : jedi.Name) : nat :=
  match p with
  | jedi.mkName _ _ _ _ _ _ _ up _ _ =>
      match up with
      | Some q => S (depth q)
      | None => O
      end
  end.

(** ** JSON documents and [order_dict] *)

#[warnings="-register-all"]
Inductive json : Type :=
| JNone
| JBool (b : bool)
| JInt (z : Z)
| JStr (s : string)
| JList (l : list json)
| JDict (items : list (string * json)).

(** [sorted(items, key=lambda x: x[0])], a stable sort. *)
Fixpoint insert_by_key {A : Type} (x : string * A) (l : list (string * A))
  : list (string * A) :=
  match l with
  | [] => [x]
  | y :: l' =>
      if String.leb (fst x) (fst y) then x :: l else y :: insert_by_key x l'
  end.

Definition sorted_by_key {A : Type} (l : list (string * A)) : list (string * A) :=
  fold_right insert_by_key [] l.

Definition key_le {A : Type} (x y : string * A) : Prop :=
  String.leb (fst x) (fst y) = true.

(** The fields of the two namedtuples, in declaration order. *)
Definition Def_fields (d : Def.t) : list (string * json) :=
  [("Path", JStr (Def.Path d)); ("Kind", JStr (Def.Kind d));
   ("Name", JStr (Def.Name d)); ("File", JStr (Def.File d));
   ("DefStart", JInt (Def.DefStart d)); ("DefEnd", JInt (Def.DefEnd d));
   ("Exported", JBool (Def.Exported d)); ("Docstring", JStr (Def.Docstring d));
   ("Data", match Def.Data d with Some x => JStr x | None => JNone end)].

Definition Ref_fields (r : Ref.t) : list (string * json) :=
  [("DefPath", JStr (Ref.DefPath r)); ("DefFile", JStr (Ref.DefFile r));
   ("Def", JBool (Ref.Def r)); ("File", JStr (Ref.File r));
   ("Start", JInt (Ref.Start r)); ("End", JInt (Ref.End_ r));
   ("ToBuiltin", JBool (Ref.ToBuiltin r))].

Definition ref_key (ref : Ref.t) : string * string * string * Z * Z :=
  (Ref.DefPath ref, Ref.DefFile ref, Ref.File ref, Ref.Start ref, Ref.End_ ref).

(** ** Keeping the first occurrence of each key *)

Section KeepFirstDef.
Context {A K : Type} `{Countable K}.
Variable key : A -> K.

(** The list a de-duplication loop appends when it starts from the set
    [seen]. *)
Fixpoint keep_first (seen : gset K) (l : list A) : list A :=
  match l with
  | [] => []
  | x :: l =>
      if bool_decide (key x ∈ seen) then keep_first seen l
      else x :: keep_first (seen ∪ {[key x]}) l
  end.

End KeepFirstDef.

Section Grapher.

(** The process and the engine around the program: [cwd] is
    [os.getcwd()] once [graph] has done [os.chdir(dir_)]; [_quiet] is the
    module global of that name; [Script_source p] is
    [jedi.Script(path=p).source] and [names p] is
    [jedi.names(path=p, all_scopes=True, references=True)]; [str_of_name]
    is how [%s] formats an engine object. *)
Variable cwd : string.
Variable _quiet : bool.
Variable Script_source : string -> string.
Variable names : string -> list jedi.Name.
Variable str_of_name : jedi.Name -> string.

(** The standard library as the program uses it: [dict_items] is the
    order in which a mapping hands out its items, [json_dumps] is
    [json.dumps(value, indent=...)] and [str_of_Def] is [str] of a [Def]
    tuple. *)
Variable dict_items : list (string * json) -> list (string * json).
Variable json_dumps : json -> option Z -> string.
Variable str_of_Def : Def.t -> string.

Definition error (msg : string) (stderr : list string) : list string :=
  if negb _quiet then stderr ++ [msg +:+ nl] else stderr.

Definition abs_module_path_to_relative_module_path (module_path : string)
  : result string :=
  let* relpath := path.relpath cwd module_path in
  if negb (Str.startswith relpath "..") then Ok relpath else
  let components := Str.split path.sep module_path in
  match first_index
          (fun cmpt => String.eqb cmpt "site-packages"
                       || String.eqb cmpt "dist-packages") components with
  | Some i => path.join (drop (i + 1)%nat components)
  | None =>
      match first_index (fun cmpt => Str.startswith cmpt "python") components with
      | Some i => path.join (drop (i + 1)%nat components)
      | None =>
          Raise (Exception ("could not convert absolute module path "
                            +:+ module_path +:+ " to relative module path"))
      end
  end.

Definition full_name_of_def (def_ : jedi.Name) (from_ref : bool) : result string :=
  if jedi.in_builtin_module def_ then Ok (jedi.name def_) else
  let* full_name :=
    if String.eqb (jedi.type def_) "statement" then
      let* p := jedi.call_parent def_ in
      if String.eqb (jedi.type p) "function" && String.eqb (jedi.name def_) "self"
      then
        let* parent := enclosing_class p in
        Ok (jedi.full_name parent +:+ "." +:+ jedi.name def_)
      else Ok (jedi.full_name def_ +:+ "." +:+ jedi.name def_)
    else if String.eqb (jedi.type def_) "param" then
      Ok (jedi.full_name def_ +:+ "." +:+ jedi.name def_)
    else Ok (jedi.full_name def_) in
  let* module_path :=
    if from_ref
    then abs_module_path_to_relative_module_path (jedi.module_path def_)
    else Ok (jedi.module_path def_) in
  let supermodule := Str.replace "/" "." (supermodule_path module_path) in
  path.join [supermodule; full_name].

Definition order_dict (dct : list (string * json)) : json :=
  JDict (sorted_by_key (dict_items dct)).

(** [jedi_def_to_def] writes the full name to [sys.stderr] between the
    conversion of the position and the construction of the tuple. *)
Definition jedi_def_to_def (def_ : jedi.Name) (source_file : string)
  (linecoler : list Z) (stderr : list string) : result Def.t * list string :=
  match full_name_of_def def_ false with
  | Raise e => (Raise e, stderr)
  | Ok full_name =>
      match LineColToOffConverter.convert linecoler (jedi.line def_) (jedi.column def_) with
      | Raise e => (Raise e, stderr)
      | Ok start =>
          let stderr := stderr ++ [full_name +:+ nl] in
          (let* File := path.relpath cwd (jedi.module_path def_) in
           match start with
           | LineColToOffConverter.Int start =>
               Ok (Def.mk (Str.replace "." "/" full_name) (jedi.type def_)
                     (jedi.name def_) File start (start + Str.len (jedi.name def_))
                     true (jedi.docstring def_) None)
           | LineColToOffConverter.NoneAnd _ =>
               Raise (TypeError "can only concatenate tuple (not int) to tuple")
           end,
           stderr)
      end
  end.

(** The body of the [try] block of [get_defs_refs]. *)
Definition name_to_ref (name : jedi.Name) (file_path : string) (linecoler : list Z)
  : result Ref.t :=
  let* full_name := full_name_of_def name true in
  if String.eqb full_name "" then Raise (Exception "full_name is empty") else
  let* start := LineColToOffConverter.convert linecoler (jedi.line name) (jedi.column name) in
  let* DefFile := path.relpath cwd (jedi.module_path name) in
  match start with
  | LineColToOffConverter.Int start =>
      Ok (Ref.mk (Str.replace "." "/" full_name) DefFile false file_path
            start (start + Str.len (jedi.name name)) (jedi.in_builtin_module name))
  | LineColToOffConverter.NoneAnd _ =>
      Raise (TypeError "can only concatenate tuple (not int) to tuple")
  end.

Definition failed_to_convert (name : jedi.Name) (file_path : string) (e : exn) : string :=
  "failed to convert ref (" +:+ str_of_name name +:+ ") in source file "
  +:+ file_path +:+ ": " +:+ str_of_exn e.

(** The [for name in names] loop of [get_defs_refs]. *)
Fixpoint get_defs_refs_loop (file_path : string) (linecoler : list Z)
  (todo : list jedi.Name) (defs : list Def.t) (refs : list Ref.t)
  (stderr : list string) : result (list Def.t * list Ref.t) * list string :=
  match todo with
  | [] => (Ok (defs, refs), stderr)
  | name :: todo =>
      if jedi.is_definition name then
        match jedi_def_to_def name file_path linecoler stderr with
        | (Ok def_, stderr) =>
            get_defs_refs_loop file_path linecoler todo (defs ++ [def_]) refs stderr
        | (Raise e, stderr) => (Raise e, stderr)
        end
      else
        match name_to_ref name file_path linecoler with
        | Ok ref =>
            get_defs_refs_loop file_path linecoler todo defs (refs ++ [ref]) stderr
        | Raise e =>
            get_defs_refs_loop file_path linecoler todo defs refs
              (error (failed_to_convert name file_path e) stderr)
        end
  end.

Definition get_defs_refs (file_path : string) (stderr : list string)
  : result (list Def.t * list Ref.t) * list string :=
  let linecoler := LineColToOffConverter.init (Script_source file_path) in
  get_defs_refs_loop file_path linecoler (names file_path) [] [] stderr.

(** The two lists of [get_defs_refs], each on its own: the definitions in
    the order of the engine, failing with the first definition that fails,
    and the references that could be converted. *)
Fixpoint names_to_defs (file_path : string) (linecoler : list Z)
  (todo : list jedi.Name) : result (list Def.t) :=
  match todo with
  | [] => Ok []
  | name :: todo =>
      if jedi.is_definition name then
        let* def_ := fst (jedi_def_to_def name file_path linecoler []) in
        let* defs := names_to_defs file_path linecoler todo in
        Ok (def_ :: defs)
      else names_to_defs file_path linecoler todo
  end.

Definition names_to_refs (file_path : string) (linecoler : list Z)
  (todo : list jedi.Name) : list Ref.t :=
  omap (fun name =>
          if jedi.is_definition name then None
          else match name_to_ref name file_path linecoler with
               | Ok ref => Some ref
               | Raise _ => None
               end) todo.

Definition file_defs (file_path : string) : result (list Def.t) :=
  names_to_defs file_path (LineColToOffConverter.init (Script_source file_path))
    (names file_path).

Definition file_refs (file_path : string) : list Ref.t :=
  names_to_refs file_path (LineColToOffConverter.init (Script_source file_path))
    (names file_path).

Fixpoint all_defs (source_files : list string) : result (list Def.t) :=
  match source_files with
  | [] => Ok []
  | file :: rest =>
      let* d := file_defs file in
      let* ds := all_defs rest in
      Ok (d ++ ds)
  end.

Definition all_refs (source_files : list string) : list Ref.t :=
  concat (map file_refs source_files).

(** The [for file in source_files] loop of [graph]. *)
Fixpoint collect (source_files : list string) (defs : list Def.t) (refs : list Ref.t)
  (stderr : list string) : result (list Def.t * list Ref.t) * list string :=
  match source_files with
  | [] => (Ok (defs, refs), stderr)
  | file :: rest =>
      match get_defs_refs file stderr with
      | (Ok (d, r), stderr) => collect rest (defs ++ d) (refs ++ r) stderr
      | (Raise e, stderr) => (Raise e, stderr)
      end
  end.

Definition module_def (module filename : string) : Def.t :=
  Def.mk (Str.replace "." "/" module) "module"
    (List.last (Str.split "."%char module) "") filename 0 0 true "" None.

(** [for module, filename in modules_and_files: defs.insert(0, Def(...))] *)
Definition add_module_defs (modules_and_files : list (string * string))
  (defs : list Def.t) : list Def.t :=
  fold_left (fun defs mf => module_def (fst mf) (snd mf) :: defs)
    modules_and_files defs.

(** The synthesized definitions as they stand in [defs] after the loop. *)
Definition module_defs (source_files : list string) : list Def.t :=
  rev (map (fun f => module_def (filename_to_module_name f) f) source_files).

(** The de-duplication loop over [defs]. *)
Fixpoint unique_defs_loop (defs : list Def.t) (unique_defs : list Def.t)
  (unique_def_paths : gset string) : list Def.t * gset string :=
  match defs with
  | [] => (unique_defs, unique_def_paths)
  | def_ :: defs =>
      if negb (bool_decide (Def.Path def_ ∈ unique_def_paths))
      then unique_defs_loop defs (unique_defs ++ [def_])
             (unique_def_paths ∪ {[Def.Path def_]})
      else unique_defs_loop defs unique_defs unique_def_paths
  end.

Definition self_ref (def_ : Def.t) : Ref.t :=
  Ref.mk (Def.Path def_) (path.abspath cwd (Def.File def_)) true (Def.File def_)
    (Def.DefStart def_) (Def.DefEnd def_) false.

(** Both reference loops of [graph] have this body. *)
Fixpoint unique_refs_loop (todo : list Ref.t) (unique_refs : list Ref.t)
  (unique_ref_keys : gset (string * string * string * Z * Z))
  : list Ref.t * gset (string * string * string * Z * Z) :=
  match todo with
  | [] => (unique_refs, unique_ref_keys)
  | ref :: todo =>
      if negb (bool_decide (ref_key ref ∈ unique_ref_keys))
      then unique_refs_loop todo (unique_refs ++ [ref])
             (unique_ref_keys ∪ {[ref_key ref]})
      else unique_refs_loop todo unique_refs unique_ref_keys
  end.

(** What [graph] leaves behind. *)
Record output : Type := mkOutput {
  Defs : list Def.t;
  Refs : list Ref.t;
  stdout : string
}.

Definition assemble (source_files : list string) (defs : list Def.t)
  (refs : list Ref.t) : list Def.t * list Ref.t :=
  let modules_and_files := map (fun f => (filename_to_module_name f, f)) source_files in
  let defs := add_module_defs modules_and_files defs in
  let (unique_defs, _) := unique_defs_loop defs [] ∅ in
  let (unique_refs, unique_ref_keys) :=
    unique_refs_loop (map self_ref unique_defs) [] ∅ in
  let (unique_refs, _) := unique_refs_loop refs unique_refs unique_ref_keys in
  (unique_defs, unique_refs).

Definition graph (dir_ : string) (source_files : list string) (pretty : bool)
  (stderr : list string) : result output * list string :=
  match collect source_files [] [] stderr with
  | (Raise e, stderr) => (Raise e, stderr)
  | (Ok (defs, refs), stderr) =>
      let (unique_defs, unique_refs) := assemble source_files defs refs in
      let json_indent := if pretty then Some 2 else None in
      match unique_defs with
      | [] => (Raise (IndexError "list index out of range"), stderr)
      | first :: _ =>
          let stderr := stderr ++ ["sys:  " +:+ str_of_Def first +:+ nl] in
          let stderr :=
            stderr ++ [json_dumps
                         (JList (take 4 (map (fun d => order_dict (Def_fields d))
                                           unique_defs))) None +:+ nl] in
          let dct :=
            [("Defs", JList (map (fun d => order_dict (Def_fields d)) unique_defs));
             ("Refs", JList (map (fun r => order_dict (Ref_fields r)) unique_refs))] in
          (Ok (mkOutput unique_defs unique_refs
                 (json_dumps (order_dict dct) json_indent +:+ nl)),
           stderr)
      end
  end.

End Grapher.


(** A reference and a definition at the same place under the same path. *)
Definition matches (R : Ref.t) (D : Def.t) : Prop :=
  Def.Path D = Ref.DefPath R /\ Def.File D = Ref.File R
  /\ Def.DefStart D = Ref.Start R /\ Def.DefEnd D = Ref.End_ R.

#[global] Instance matches_dec (R : Ref.t) (D : Def.t) : Decision (matches R D).
Proof. unfold matches. apply _. Defined.

(** The document of a run, empty when the run was aborted. *)
Definition output_of (r : result output * list string) : output :=
  match fst r with
  | Ok out => out
  | Raise _ => mkOutput [] [] ""
  end.

(** ** Concrete runs, used to evaluate the program *)

Module Scenario.

Definition cwd : string := "/home/u/proj".

(** [pkg/m.py]:
<<
class C:
    def __init__(self):
        self.x = 1
c = C()
>> *)
Definition source : string :=
  "class C:" +:+ nl +:+ "    def __init__(self):" +:+ nl
  +:+ "        self.x = 1" +:+ nl +:+ "c = C()" +:+ nl.

Definition mod_m : jedi.Name :=
  jedi.mkName true "module" "m" 0 0 "pkg/m.py" "m" None "" false.
Definition class_C : jedi.Name :=
  jedi.mkName true "class" "C" 1 6 "pkg/m.py" "m.C" (Some mod_m) "" false.
Definition ctor : jedi.Name :=
  jedi.mkName true "function" "__init__" 2 8 "pkg/m.py" "m.C.__init__"
    (Some class_C) "" false.
Definition self_param : jedi.Name :=
  jedi.mkName true "param" "self" 2 17 "pkg/m.py" "m.C.__init__" (Some ctor) "" false.
(** The occurrence [self.x = 1], named by its receiver. *)
Definition self_x : jedi.Name :=
  jedi.mkName true "statement" "self" 3 8 "pkg/m.py" "m.C.__init__" (Some ctor) "" false.
(** The same occurrence, had the engine named it by its attribute. *)
Definition attr_x : jedi.Name :=
  jedi.mkName true "statement" "x" 3 13 "pkg/m.py" "m.C.__init__" (Some ctor) "" false.
Definition c_def : jedi.Name :=
  jedi.mkName true "statement" "c" 4 0 "pkg/m.py" "m" (Some mod_m) "" false.
(** The use of [C] in the last line. *)
Definition ref_C : jedi.Name :=
  jedi.mkName false "class" "C" 4 4 "/home/u/proj/pkg/m.py" "m.C" (Some mod_m) "" false.
(** A use reported at the very place where [C] is defined. *)
Definition ref_at_def : jedi.Name :=
  jedi.mkName false "class" "C" 1 6 "/home/u/proj/pkg/m.py" "m.C" (Some mod_m) "" false.

(** [pkg/n.py]: uses of a name from a file outside the tree that no marker
    locates, of a name of the installed library, and a definition. *)
Definition source_n : string := "import lib, os" +:+ nl +:+ "y = 2" +:+ nl.

Definition mod_n : jedi.Name :=
  jedi.mkName true "module" "n" 0 0 "pkg/n.py" "n" None "" false.
Definition ref_lib : jedi.Name :=
  jedi.mkName false "module" "lib" 1 7 "/opt/other/lib.py" "lib" None "" false.
Definition ref_os : jedi.Name :=
  jedi.mkName false "module" "os" 1 12 "/usr/lib/python2.7/os.py" "os" None "" false.
Definition y_def : jedi.Name :=
  jedi.mkName true "statement" "y" 2 0 "pkg/n.py" "n" (Some mod_n) "" false.

(** [bad.py]: one line of text, and an engine that places a definition and
    a use on line 3. *)
Definition source_bad : string := "x = 1".

Definition mod_bad : jedi.Name :=
  jedi.mkName true "module" "bad" 0 0 "bad.py" "bad" None "" false.
Definition x_far : jedi.Name :=
  jedi.mkName true "statement" "x" 3 0 "bad.py" "bad" (Some mod_bad) "" false.
Definition x_use_far : jedi.Name :=
  jedi.mkName false "statement" "x" 3 0 "/home/u/proj/bad.py" "bad" (Some mod_bad) "" false.
Definition x_def : jedi.Name :=
  jedi.mkName true "statement" "x" 1 0 "bad.py" "bad" (Some mod_bad) "" false.

Definition names (file_path : string) : list jedi.Name :=
  if String.eqb file_path "pkg/m.py"
  then [class_C; ref_at_def; ctor; self_param; self_x; c_def; ref_C]
  else if String.eqb file_path "pkg/n.py" then [ref_lib; ref_os; y_def]
  else if String.eqb file_path "bad.py" then [x_def; x_far]
  else if String.eqb file_path "use.py" then [x_use_far; x_def]
  else [].

Definition Script_source (file_path : string) : string :=
  if String.eqb file_path "pkg/m.py" then source
  else if String.eqb file_path "pkg/n.py" then source_n
  else if String.eqb file_path "bad.py" then source_bad
  else if String.eqb file_path "use.py" then source_bad
  else "".

Definition str_of_name (n : jedi.Name) : string :=
  "<Definition " +:+ jedi.name n +:+ ">".

Definition quote : string := String (ascii_of_nat 34) EmptyString.

(** A compact rendering of documents for the concrete runs. *)
Fixpoint dumps (v : json) : string :=
  match v with
  | JNone => "null"
  | JBool b => if b then "true" else "false"
  | JInt z => Str.of_Z z
  | JStr s => quote +:+ s +:+ quote
  | JList l => "[" +:+ Str.join ", " (map dumps l) +:+ "]"
  | JDict items =>
      "{" +:+ Str.join ", "
                (map (fun kv => match kv with
                                | (k, v) => quote +:+ k +:+ quote +:+ ": " +:+ dumps v
                                end) items) +:+ "}"
  end.

Definition json_dumps (v : json) (indent : option Z) : string := dumps v.

Definition str_of_Def (d : Def.t) : string := "Def(Path=" +:+ Def.Path d +:+ ")".

Definition run (_quiet : bool)
  (dict_items : list (string * json) -> list (string * json))
  (source_files : list string) : result output * list string :=
  graph cwd _quiet Script_source names str_of_name dict_items json_dumps
    str_of_Def "." source_files false [].

End Scenario.
(** * Further definitions *)

(** [c in s]. *)
Fixpoint has_char (c : ascii) (s : string) : bool :=
  match s with
  | EmptyString => false
  | String d r => Ascii.eqb d c || has_char c r
  end.

(** ** The batches of [graph_wrapper] *)

Definition SOURCE_FILE_BATCH : nat := 10.

(** [range(0, stop, step)] for a positive [step]. *)
Definition py_range0 (stop step : nat) : list nat :=
  map (fun k => (k * step)%nat) (seq 0 ((stop + step - 1) / step)).

(** [l[:n]]: a negative [n] counts from the end. *)
Definition py_slice_to {A : Type} (l : list A) (n : Z) : list A :=
  if n <? 0 then take (Z.to_nat (Z.of_nat (length l) + n)) l
  else take (Z.to_nat n) l.

(** The slices [source_files[i:i + SOURCE_FILE_BATCH]] of the loop. *)
Definition batches (source_files : list string) : list (nat * list string) :=
  map (fun i => (i, take SOURCE_FILE_BATCH (drop i source_files)))
    (py_range0 (length source_files) SOURCE_FILE_BATCH).

(** ** Reading a parsed document *)

(** [data[k]]; the exception for a key that is missing stands for the
    KeyError, with the key as its text. *)
Definition json_getitem (data : json) (k : string) : result json :=
  match data with
  | JDict items =>
      match find (fun kv => String.eqb (fst kv) k) items with
      | Some kv => Ok (snd kv)
      | None => Raise (Exception k)
      end
  | JList _ => Raise (TypeError "list indices must be integers, not str")
  | JStr _ => Raise (TypeError "string indices must be integers")
  | _ => Raise (TypeError "object has no attribute __getitem__")
  end.

(** [for dct in v] *)
Definition json_iter (v : json) : result (list json) :=
  match v with
  | JList l => Ok l
  | JDict items => Ok (map (fun kv => JStr (fst kv)) items)
  | JStr s => Ok (map (fun c => JStr (String c EmptyString)) (list_ascii_of_string s))
  | _ => Raise (TypeError "object is not iterable")
  end.

(** [dct.items()] before the mapping orders them. *)
Definition json_items (dct : json) : result (list (string * json)) :=
  match dct with
  | JDict items => Ok items
  | _ => Raise (AttributeError "object has no attribute items")
  end.

(** [[f(x) for x in l]], stopping at the first exception. *)
Fixpoint map_result {A B : Type} (f : A -> result B) (l : list A) : result (list B) :=
  match l with
  | [] => Ok []
  | x :: l =>
      let* y := f x in
      let* ys := map_result f l in
      Ok (y :: ys)
  end.

(** [relpath(p, start)] *)
Definition relpath_start (cwd p start : string) : result string :=
  if Str.is_empty p then Raise (ValueError "no path specified") else
  let start_list := path.nonempty_comps (path.abspath cwd start) in
  let path_list := path.nonempty_comps (path.abspath cwd p) in
  let i := path.commonprefix_len start_list path_list in
  let rel_list := repeat ".." (length start_list - i) ++ drop i path_list in
  match rel_list with
  | [] => Ok "."
  | a :: rest => path.join (a :: rest)
  end.

Section BatchCoordinator.

(** As in [Grapher], and besides: the global [_verbose], what [os.walk]
    yields for a directory (triples of a directory path, its directory
    names and its file names), [json.loads], and the text that the
    interpreter writes for an exception that ends a process. *)
Variable cwd : string.
Variable _quiet : bool.
Variable _verbose : bool.
Variable Script_source : string -> string.
Variable names : string -> list jedi.Name.
Variable str_of_name : jedi.Name -> string.
Variable dict_items : list (string * json) -> list (string * json).
Variable json_dumps : json -> option Z -> string.
Variable json_loads : string -> result json.
Variable str_of_Def : Def.t -> string.
Variable os_walk : string -> list (string * list string * list string).
Variable traceback : exn -> string.

Definition log (msg : string) (stderr : list string) : list string :=
  if _verbose then stderr ++ [msg +:+ nl] else stderr.

(** The inner loop of [get_source_files] over the file names of one
    directory. *)
Definition python_files (rel_dirpath : string) (filenames : list string) : list string :=
  map (fun filename => path.normpath (path.join2 rel_dirpath filename))
    (filter (fun filename => snd (path.splitext filename) = ".py") filenames).

Fixpoint get_source_files_loop (dir_ : string)
  (walk : list (string * list string * list string)) (source_files : list string)
  : result (list string) :=
  match walk with
  | [] => Ok source_files
  | (dirpath, dirnames, filenames) :: walk =>
      let* rel_dirpath := relpath_start cwd dirpath dir_ in
      get_source_files_loop dir_ walk
        (source_files ++ python_files rel_dirpath filenames)
  end.

Definition get_source_files (dir_ : string) : result (list string) :=
  get_source_files_loop dir_ (os_walk dir_) [].

(** The document that [graph] prints. *)
Definition document_of (out : output) : json :=
  order_dict dict_items
    [("Defs", JList (map (fun d => order_dict dict_items (Def_fields d)) (Defs out)));
     ("Refs", JList (map (fun r => order_dict dict_items (Ref_fields r)) (Refs out)))].

(** A batch is read back when its child has printed a document that
    [json.loads] reads as it was written. *)
Definition read_back (pretty : bool) (ib : nat * list string) (out : output) : Prop :=
  fst (graph cwd _quiet Script_source names str_of_name dict_items json_dumps
         str_of_Def "." (snd ib) pretty []) = Ok out
  /\ json_loads (stdout out) = Ok (document_of out).

(** [[order_dict(dct) for dct in data[k]]] *)
Definition ordered_records (data : json) (k : string) : result (list json) :=
  let* records := json_getitem data k in
  let* records := json_iter records in
  map_result (fun dct => let* items := json_items dct in Ok (order_dict dict_items items))
    records.

(** One turn of the loop of [graph_wrapper]. The child process is the
    program itself with [--dir .] and the files of the batch, which are
    never none: it runs [graph] in the same directory with the same flags,
    writes its diagnostics to the same stream, and its standard output is
    what the parent reads. A child that ends with an exception has printed
    nothing to standard output. *)
Definition run_batch (i : nat) (batch : list string) (total : nat) (pretty : bool)
  (stderr : list string) : result (list json * list json) * list string :=
  let stderr :=
    log ("processing source files " +:+ Str.of_Z (Z.of_nat i) +:+ " to "
         +:+ Str.of_Z (Z.of_nat (i + SOURCE_FILE_BATCH)) +:+ " of "
         +:+ Str.of_Z (Z.of_nat total)) stderr in
  let (child, stderr) :=
    graph cwd _quiet Script_source names str_of_name dict_items json_dumps
      str_of_Def "." batch pretty stderr in
  let (out, stderr) :=
    match child with
    | Ok o => (stdout o, stderr)
    | Raise e => ("", stderr ++ [traceback e])
    end in
  (let* data := json_loads out in
   let* defs := ordered_records data "Defs" in
   let* refs := ordered_records data "Refs" in
   Ok (defs, refs),
   stderr).

Fixpoint batch_loop (todo : list (nat * list string)) (total : nat) (pretty : bool)
  (defs refs : list json) (stderr : list string)
  : result (list json * list json) * list string :=
  match todo with
  | [] => (Ok (defs, refs), stderr)
  | (i, batch) :: todo =>
      match run_batch i batch total pretty stderr with
      | (Ok (d, r), stderr) =>
          batch_loop todo total pretty (defs ++ d) (refs ++ r) stderr
      | (Raise e, stderr) => (Raise e, stderr)
      end
  end.

(** [graph_wrapper], with [cwd] the directory after [os.chdir(dir_)]; the
    result is the text printed to standard output. *)
Definition graph_wrapper (dir_ : string) (pretty : bool)
  (nSourceFilesTrunc : option Z) (stderr : list string)
  : result string * list string :=
  match get_source_files "." with
  | Raise e => (Raise e, stderr)
  | Ok source_files =>
      let source_files :=
        match nSourceFilesTrunc with
        | Some n => py_slice_to source_files n
        | None => source_files
        end in
      match batch_loop (batches source_files) (length source_files) pretty [] []
              stderr with
      | (Raise e, stderr) => (Raise e, stderr)
      | (Ok (defs, refs), stderr) =>
          let json_indent := if pretty then Some 2 else None in
          (Ok (json_dumps
                 (JDict (dict_items [("Defs", JList defs); ("Refs", JList refs)]))
                 json_indent +:+ nl),
           stderr)
      end
  end.

End BatchCoordinator.

(** ** Concrete trees for the batch coordinator *)

Module Tree.

(** A tree with the package [pkg] of [Scenario], and one with [bad.py]
    beside it. *)
Definition walk_pkg (dir_ : string) : list (string * list string * list string) :=
  [(".", ["pkg"], ["README"]); ("./pkg", [], ["m.py"; "n.py"; "notes.txt"])].

Definition walk_bad (dir_ : string) : list (string * list string * list string) :=
  [(".", ["pkg"], ["bad.py"]); ("./pkg", [], ["n.py"])].

Definition document (files : list string) : json :=
  document_of id (output_of (Scenario.run false id files)).

(** A reader that knows the document of the one batch of [walk_pkg]. *)
Definition json_loads (text : string) : result json :=
  if String.eqb text (stdout (output_of (Scenario.run false id ["pkg/m.py"; "pkg/n.py"])))
  then Ok (document ["pkg/m.py"; "pkg/n.py"])
  else Raise (ValueError "No JSON object could be decoded").

Definition traceback (e : exn) : string := "Traceback: " +:+ str_of_exn e +:+ nl.

Definition wrapper (walk : string -> list (string * list string * list string))
  (nSourceFilesTrunc : option Z) : result string * list string :=
  graph_wrapper Scenario.cwd false false Scenario.Script_source Scenario.names
    Scenario.str_of_name id Scenario.json_dumps json_loads Scenario.str_of_Def
    walk traceback "." false nSourceFilesTrunc [].

End Tree.

(** ** Characters and bytes *)

(** The number of bytes of a character in UTF-8: one for a character below
    128, two for a character from 128 to 255. *)
Definition utf8_width (c : ascii) : Z :=
  if (nat_of_ascii c <? 128)%nat then 1 else 2.

(** [len(s.encode('utf-8'))]. *)
Fixpoint utf8_len (s : string) : Z :=
  match s with
  | EmptyString => 0
  | String c r => utf8_width c + utf8_len r
  end.

Fixpoint is_ascii (s : string) : bool :=
  match s with
  | EmptyString => true
  | String c r => (nat_of_ascii c <? 128)%nat && is_ascii r
  end.

(** The table as the specification words it: entry [i] is the cumulative
    byte length of the lines before line [i], each with its line feed. *)
Definition bytes_before (source_lines : list string) (i : nat) : Z :=
  foldr (fun line acc => utf8_len line + 1 + acc) 0 (take i source_lines).

Definition byte_table (source : string) : list Z :=
  let source_lines := Str.split "010"%char source in
  map (bytes_before source_lines) (seq 0 (S (length source_lines))).

(** [acc.py], a comment with the letter e acute (character 233, two bytes
    in UTF-8) and an assignment:
<<
# <e acute>
x = 1
>> *)
Module Accented.

Definition source : string :=
  "# " +:+ String "233"%char EmptyString +:+ nl +:+ "x = 1" +:+ nl.

Definition mod_acc : jedi.Name :=
  jedi.mkName true "module" "acc" 0 0 "acc.py" "acc" None "" false.
Definition x_def : jedi.Name :=
  jedi.mkName true "statement" "x" 2 0 "acc.py" "acc" (Some mod_acc) "" false.

End Accented.

(** [pkg/a.py], a constructor that sets two attributes:
<<
class C:
    def __init__(self):
        self.x = 1
        self.y = 2
>>
    The engine names both assignments by their receiver. *)
Module TwoAttributes.

Definition source : string :=
  "class C:" +:+ nl +:+ "    def __init__(self):" +:+ nl
  +:+ "        self.x = 1" +:+ nl +:+ "        self.y = 2" +:+ nl.

Definition mod_a : jedi.Name :=
  jedi.mkName true "module" "a" 0 0 "pkg/a.py" "a" None "" false.
Definition class_C : jedi.Name :=
  jedi.mkName true "class" "C" 1 6 "pkg/a.py" "a.C" (Some mod_a) "" false.
Definition ctor : jedi.Name :=
  jedi.mkName true "function" "__init__" 2 8 "pkg/a.py" "a.C.__init__"
    (Some class_C) "" false.
Definition self_param : jedi.Name :=
  jedi.mkName true "param" "self" 2 17 "pkg/a.py" "a.C.__init__" (Some ctor) "" false.
Definition self_x : jedi.Name :=
  jedi.mkName true "statement" "self" 3 8 "pkg/a.py" "a.C.__init__" (Some ctor) "" false.
Definition self_y : jedi.Name :=
  jedi.mkName true "statement" "self" 4 8 "pkg/a.py" "a.C.__init__" (Some ctor) "" false.

Definition names (file_path : string) : list jedi.Name :=
  if String.eqb file_path "pkg/a.py" then [class_C; ctor; self_param; self_x; self_y]
  else [].

Definition Script_source (file_path : string) : string :=
  if String.eqb file_path "pkg/a.py" then source else "".

Definition run : result output * list string :=
  graph Scenario.cwd false Script_source names Scenario.str_of_name id
    Scenario.json_dumps Scenario.str_of_Def "." ["pkg/a.py"] false [].

End TwoAttributes.

(** * Verification *)

(** ** Strings and paths *)

Lemma startswith_slash_cons (c : ascii) (s : string) :
  Str.startswith (String c s) "/" = Ascii.eqb c "/"%char.
Proof.
  unfold Str.startswith.
  change (String.prefix "/" (String c s))
    with (if ascii_dec "/" c then String.prefix "" s else false).
  destruct (ascii_dec "/" c) as [<-|Hne].
  - by destruct s.
  - symmetry. apply Ascii.eqb_neq. congruence.
Qed.

Lemma startswith_slash_app (a b : string) :
  a <> "" -> Str.startswith (a +:+ b) "/" = Str.startswith a "/".
Proof.
  destruct a as [|c a]; [done|]. intros _.
  change (String c a +:+ b) with (String c (a +:+ b)).
  by rewrite !startswith_slash_cons.
Qed.

Lemma split_not_nil (sep : ascii) (s : string) : Str.split sep s <> [].
Proof.
  destruct s as [|c r]; simpl; [done|].
  destruct (Ascii.eqb c sep); [done|]. by destruct (Str.split sep r).
Qed.

Lemma split_no_leading_sep (s : string) :
  Forall (fun w => Str.startswith w "/" = false) (Str.split path.sep s).
Proof.
  induction s as [|c r IH]; simpl.
  - by repeat constructor.
  - destruct (Ascii.eqb c path.sep) eqn:Hc.
    + by constructor.
    + destruct (Str.split path.sep r) as [|w ws].
      * constructor; [|done]. by rewrite startswith_slash_cons.
      * inversion IH; subst. constructor; [|done].
        by rewrite startswith_slash_cons.
Qed.

(** Joining the pieces of a split gives the text back. *)
Lemma join_split (c : ascii) (s : string) :
  Str.join (String c EmptyString) (Str.split c s) = s.
Proof.
  induction s as [|d r IH]; simpl; [done|].
  destruct (Ascii.eqb d c) eqn:Hd.
  - apply Ascii.eqb_eq in Hd as ->.
    pose proof (split_not_nil c r) as Hne.
    destruct (Str.split c r) as [|w ws]; [done|].
    simpl in *. by rewrite IH.
  - destruct (Str.split c r) as [|w ws] eqn:Hs; [by destruct (split_not_nil c r)|].
    destruct ws as [|w' ws]; simpl in *; by rewrite <- IH.
Qed.

(** ** Lists *)

Lemma map_fmap {A B : Type} (f : A -> B) (l : list A) : map f l = f <$> l.
Proof. induction l as [|x l IH]; simpl; [done|]. by rewrite IH. Qed.

Lemma elem_of_concat {A : Type} (x : A) (ls : list (list A)) :
  x ∈ concat ls <-> exists l, x ∈ l /\ l ∈ ls.
Proof.
  induction ls as [|l ls IH]; simpl.
  - split; [by intros ?%elem_of_nil|by intros (l & _ & ?%elem_of_nil)].
  - rewrite elem_of_app, IH. split.
    + intros [Hx|(l' & Hx & Hl')]; [exists l|exists l']; split; try done.
      * by left.
      * by right.
    + intros (l' & Hx & [->|Hl']%elem_of_cons); [by left|right; eauto].
Qed.

(** ** The position converter *)

Module ConverterFacts.
Import LineColToOffConverter.

Lemma init_loop (source_lines : list string) (acc : list Z) :
  fold_left
    (fun cumulative_off line =>
       cumulative_off ++ [List.last cumulative_off 0 + Str.len line + 1])
    source_lines acc
  = acc ++ offsets_from (List.last acc 0) source_lines.
Proof.
  revert acc. induction source_lines as [|line rest IH]; intros acc; simpl.
  - by rewrite app_nil_r.
  - rewrite IH, last_last, <- app_assoc. done.
Qed.

Lemma init_eq (source : string) :
  init source = 0 :: offsets_from 0 (Str.split "010"%char source).
Proof. unfold init. by rewrite init_loop. Qed.

Lemma length_offsets_from (start : Z) (ls : list string) :
  length (offsets_from start ls) = length ls.
Proof. revert start. induction ls; intros; simpl; [done|]. by rewrite IHls. Qed.

Lemma lookup_offsets (start : Z) (ls : list string) (i : nat) :
  (i <= length ls)%nat ->
  (start :: offsets_from start ls) !! i = Some (start + lines_before ls i).
Proof.
  revert start i. induction ls as [|l ls IH]; intros start i Hi.
  - destruct i; simpl in *; [|lia]. unfold lines_before; simpl. f_equal; lia.
  - destruct i as [|i].
    + unfold lines_before; simpl. f_equal; lia.
    + cbn [offsets_from]. rewrite lookup_cons. simpl in Hi.
      rewrite IH by lia. unfold lines_before. simpl. f_equal. lia.
Qed.

Lemma length_init (source : string) :
  length (init source) = S (length (Str.split "010"%char source)).
Proof. rewrite init_eq. simpl. by rewrite length_offsets_from. Qed.

Lemma getitem_nonneg {A : Type} (l : list A) (i : nat) (x : A) :
  l !! i = Some x -> py_getitem l (Z.of_nat i) = Ok x.
Proof.
  intros Hx. pose proof (lookup_lt_Some _ _ _ Hx) as Hlt.
  unfold py_getitem.
  destruct (Z.ltb_spec (Z.of_nat i) 0); [lia|].
  destruct (Z.ltb_spec (Z.of_nat i) 0); [lia|].
  destruct (Z.leb_spec (Z.of_nat (length l)) (Z.of_nat i)); [lia|].
  simpl. by rewrite Nat2Z.id, Hx.
Qed.

End ConverterFacts.

(** The table of the position converter has one entry more than the
    source has lines (the pieces between line feeds); entry [i] is the
    number of characters of the lines before line [i], each counted with its
    line feed; and for a 1-indexed [line] within the table,
    [convert line column] is the integer [table[line-1] + column]. *)
Lemma convert_prefix_sums (source : string) (line column : Z) :
  let source_lines := Str.split "010"%char source in
  let table := LineColToOffConverter.init source in
  1 <= line <= Z.of_nat (length table) ->
  length table = S (length source_lines)
  /\ (forall i : nat, (i <= length source_lines)%nat ->
        table !! i = Some (lines_before source_lines i))
  /\ py_getitem table (line - 1)
     = Ok (lines_before source_lines (Z.to_nat (line - 1)))
  /\ LineColToOffConverter.convert table line column
     = Ok (LineColToOffConverter.Int
             (lines_before source_lines (Z.to_nat (line - 1)) + column)).
Proof.
  intros source_lines table Hrange.
  assert (Hlen : length table = S (length source_lines))
    by apply ConverterFacts.length_init.
  assert (Hlook : forall i : nat, (i <= length source_lines)%nat ->
            table !! i = Some (lines_before source_lines i)).
  { intros i Hi. unfold table. rewrite ConverterFacts.init_eq.
    by rewrite ConverterFacts.lookup_offsets. }
  assert (Hget : py_getitem table (line - 1)
     = Ok (lines_before source_lines (Z.to_nat (line - 1)))).
  { rewrite <- (Z2Nat.id (line - 1)) at 1 by lia.
    apply ConverterFacts.getitem_nonneg, Hlook. lia. }
  repeat split; try done.
  unfold LineColToOffConverter.convert.
  destruct (Z.leb_spec (Z.of_nat (length table)) (line - 1)); [lia|].
  by rewrite Hget.
Qed.

(** ** Characters against bytes *)

Lemma lines_before_S (l : string) (ls : list string) (i : nat) :
  lines_before (l :: ls) (S i) = Str.len l + 1 + lines_before ls i.
Proof. done. Qed.

Lemma join_cons_cons (sep l l' : string) (ls : list string) :
  Str.join sep (l :: l' :: ls) = l +:+ sep +:+ Str.join sep (l' :: ls).
Proof. done. Qed.

Lemma length_append (a b : string) :
  String.length (a +:+ b) = (String.length a + String.length b)%nat.
Proof. induction a as [|c a IH]; simpl; [done|]. by rewrite IH. Qed.

Lemma lines_before_all (ls : list string) :
  ls <> [] ->
  lines_before ls (length ls) = Str.len (Str.join nl ls) + 1.
Proof.
  induction ls as [|l ls IH]; intros Hne; [done|].
  destruct ls as [|l' ls].
  - unfold lines_before. simpl. lia.
  - rewrite join_cons_cons.
    change (length (l :: l' :: ls)) with (S (length (l' :: ls))).
    rewrite lines_before_S, IH by done.
    unfold Str.len. rewrite !length_append. simpl. lia.
Qed.

Lemma utf8_len_app (a b : string) : utf8_len (a +:+ b) = utf8_len a + utf8_len b.
Proof.
  induction a as [|c a IH]; [done|].
  change (String c a +:+ b) with (String c (a +:+ b)). cbn [utf8_len]. lia.
Qed.

Lemma utf8_len_ge (s : string) : Str.len s <= utf8_len s.
Proof.
  unfold Str.len. induction s as [|c s IH]; [done|].
  cbn [utf8_len String.length]. unfold utf8_width.
  destruct (nat_of_ascii c <? 128)%nat; lia.
Qed.

Lemma utf8_len_eq_iff (s : string) : utf8_len s = Str.len s <-> is_ascii s = true.
Proof.
  induction s as [|c s IH]; [done|].
  pose proof (utf8_len_ge s) as Hge. revert Hge IH. unfold Str.len.
  cbn [utf8_len String.length is_ascii]. unfold utf8_width. intros Hge IH.
  destruct (nat_of_ascii c <? 128)%nat; cbn [andb].
  - rewrite <- IH. lia.
  - split; [lia|done].
Qed.

Lemma is_ascii_split (c : ascii) (s : string) :
  is_ascii s = true -> Forall (fun l => is_ascii l = true) (Str.split c s).
Proof.
  induction s as [|d r IH]; simpl.
  - by repeat constructor.
  - intros [Hd Hr]%andb_prop. specialize (IH Hr).
    destruct (Ascii.eqb d c).
    + by constructor.
    + destruct (Str.split c r) as [|w ws].
      * constructor; [|done]. simpl. by rewrite Hd.
      * inversion IH; subst. constructor; [|done]. simpl. by rewrite Hd.
Qed.

Lemma bytes_before_ascii (ls : list string) (i : nat) :
  Forall (fun l => is_ascii l = true) ls -> bytes_before ls i = lines_before ls i.
Proof.
  unfold bytes_before, lines_before. intros Hls. revert i.
  induction Hls as [|l ls Hl _ IH]; intros [|i]; simpl; try done.
  rewrite IH. apply utf8_len_eq_iff in Hl. lia.
Qed.

Lemma bytes_before_all (ls : list string) :
  ls <> [] -> bytes_before ls (length ls) = utf8_len (Str.join nl ls) + 1.
Proof.
  unfold bytes_before. rewrite firstn_all.
  induction ls as [|l ls IH]; [done|]. intros _.
  destruct ls as [|l' ls]; [simpl; lia|].
  change (Str.join nl (l :: l' :: ls)) with (l +:+ nl +:+ Str.join nl (l' :: ls)).
  rewrite !utf8_len_app. cbn [foldr] in *. rewrite IH by done.
  change (utf8_len nl) with 1. lia.
Qed.

Lemma byte_table_lookup (source : string) (i : nat) :
  (i <= length (Str.split "010"%char source))%nat ->
  byte_table source !! i = Some (bytes_before (Str.split "010"%char source) i).
Proof.
  intros Hi. unfold byte_table. cbv zeta. rewrite map_fmap, list_lookup_fmap.
  rewrite lookup_seq_lt by lia. done.
Qed.

(** The table of the converter is the table of byte lengths exactly for
    the texts of characters below 128. *)
Lemma table_is_byte_table_iff (source : string) :
  LineColToOffConverter.init source = byte_table source <-> is_ascii source = true.
Proof.
  set (ls := Str.split "010"%char source).
  assert (Hsrc : Str.join nl ls = source) by apply join_split.
  assert (Hne : ls <> []) by apply split_not_nil.
  split.
  - intros Heq. apply utf8_len_eq_iff.
    assert (Hl : LineColToOffConverter.init source !! length ls
                 = byte_table source !! length ls) by by rewrite Heq.
    rewrite ConverterFacts.init_eq, ConverterFacts.lookup_offsets in Hl by done.
    rewrite byte_table_lookup in Hl by done. fold ls in Hl.
    rewrite lines_before_all, bytes_before_all, Hsrc in Hl by done.
    injection Hl. lia.
  - intros Ha. apply list_eq. intros i.
    destruct (decide (i <= length ls)%nat) as [Hi|Hi].
    + rewrite ConverterFacts.init_eq, ConverterFacts.lookup_offsets by done.
      rewrite byte_table_lookup by done. fold ls.
      rewrite bytes_before_ascii by by apply is_ascii_split. done.
    + rewrite !lookup_ge_None_2; [done| |].
      * unfold byte_table. cbv zeta. rewrite length_map, length_seq. fold ls. lia.
      * rewrite ConverterFacts.length_init. fold ls. lia.
Qed.

(** C3. The comment of [convert] promises a byte offset and the table is
    meant to hold cumulative byte lengths, but [len(line)] counts the
    characters of the text. For the text [acc.py], whose first line holds a
    character of two bytes, the table of the converter is [0, 4, 10, 11]
    where the byte lengths give [0, 5, 11, 12]: line 2 starts at byte 5, and
    [convert 2 0] returns 4, so the definition of [x] is recorded at 4..5,
    one byte before its place. *)
Theorem C3_table_counts_characters :
  let source := Accented.source in
  let table := LineColToOffConverter.init source in
  Str.split "010"%char source = ["# " +:+ String "233"%char EmptyString; "x = 1"; ""]
  /\ is_ascii source = false
  /\ table = [0; 4; 10; 11]
  /\ byte_table source = [0; 5; 11; 12]
  /\ LineColToOffConverter.convert table 2 0 = Ok (LineColToOffConverter.Int 4)
  /\ utf8_len ("# " +:+ String "233"%char EmptyString +:+ nl) = 5
  /\ fst (jedi_def_to_def Scenario.cwd Accented.x_def "acc.py" table [])
     = Ok (Def.mk "acc/x" "statement" "x" "acc.py" 4 5 true "" None).
Proof. repeat split; vm_compute; reflexivity. Qed.


(** ** Facts about keeping first occurrences *)

Section KeepFirst.
Context {A K : Type} `{Countable K}.
Variable key : A -> K.

Lemma keep_first_fresh (seen : gset K) (l : list A) (x : A) :
  x ∈ keep_first key seen l -> key x ∉ seen.
Proof.
  revert seen. induction l as [|y l IH]; intros seen; simpl.
  - by intros ?%elem_of_nil.
  - case_bool_decide as Hy.
    + apply IH.
    + intros [->|Hx]%elem_of_cons; [done|].
      apply IH in Hx. set_solver.
Qed.

Lemma keep_first_NoDup (seen : gset K) (l : list A) :
  NoDup (key <$> keep_first key seen l).
Proof.
  revert seen. induction l as [|y l IH]; intros seen; simpl.
  - constructor.
  - case_bool_decide as Hy; [apply IH|].
    rewrite fmap_cons. constructor; [|apply IH].
    intros (z & Hz & Hin)%list_elem_of_fmap.
    apply keep_first_fresh in Hin. set_solver.
Qed.

Lemma keep_first_sublist (seen : gset K) (l : list A) :
  sublist (keep_first key seen l) l.
Proof.
  revert seen. induction l as [|y l IH]; intros seen; simpl; [done|].
  case_bool_decide.
  - by apply sublist_cons.
  - by apply sublist_skip.
Qed.

(** A kept element is the first one of the list with its key. *)
Lemma keep_first_is_first (seen : gset K) (l : list A) (x : A) :
  x ∈ keep_first key seen l ->
  exists pre post, l = pre ++ x :: post /\ (forall y, y ∈ pre -> key y <> key x).
Proof.
  revert seen. induction l as [|y l IH]; intros seen; simpl.
  - by intros ?%elem_of_nil.
  - case_bool_decide as Hy.
    + intros Hx. pose proof (keep_first_fresh _ _ _ Hx) as Hfresh.
      destruct (IH _ Hx) as (pre & post & -> & Hpre).
      exists (y :: pre), post. split; [done|].
      intros z [->|Hz]%elem_of_cons; [congruence|by apply Hpre].
    + intros [->|Hx]%elem_of_cons.
      * exists [], l. split; [done|]. by intros z ?%elem_of_nil.
      * pose proof (keep_first_fresh _ _ _ Hx) as Hfresh.
        destruct (IH _ Hx) as (pre & post & -> & Hpre).
        exists (y :: pre), post. split; [done|].
        intros z [->|Hz]%elem_of_cons; [set_solver|by apply Hpre].
Qed.

(** The first element with a key that has not been seen is kept. *)
Lemma keep_first_keeps (seen : gset K) (pre post : list A) (x : A) :
  key x ∉ seen -> (forall y, y ∈ pre -> key y <> key x) ->
  x ∈ keep_first key seen (pre ++ x :: post).
Proof.
  revert seen. induction pre as [|y pre IH]; intros seen Hseen Hpre; simpl.
  - rewrite bool_decide_eq_false_2 by done. by left.
  - assert (key y <> key x) by (apply Hpre; by left).
    assert (forall z, z ∈ pre -> key z <> key x)
      by (intros z Hz; apply Hpre; by right).
    case_bool_decide.
    + by apply IH.
    + right. apply IH; [set_solver|done].
Qed.

(** Keys that cannot occur in the list make no difference. *)
Lemma keep_first_irrelevant (seen extra : gset K) (l : list A) :
  (forall x, x ∈ l -> key x ∉ extra) ->
  keep_first key (seen ∪ extra) l = keep_first key seen l.
Proof.
  revert seen. induction l as [|y l IH]; intros seen Hl; simpl; [done|].
  assert (key y ∉ extra) by (apply Hl; by left).
  assert (forall x, x ∈ l -> key x ∉ extra) by (intros x Hx; apply Hl; by right).
  rewrite (bool_decide_ext (key y ∈ seen ∪ extra) (key y ∈ seen)) by set_solver.
  case_bool_decide; [by apply IH|].
  f_equal. rewrite <- (IH (seen ∪ {[key y]})) by done.
  f_equal. set_solver.
Qed.

Lemma keep_first_NoDup_id (l : list A) :
  NoDup (key <$> l) -> keep_first key ∅ l = l.
Proof.
  assert (Hgen : forall seen, NoDup (key <$> l) ->
            (forall x, x ∈ l -> key x ∉ seen) -> keep_first key seen l = l).
  { induction l as [|y l IH]; intros seen Hnd Hseen; simpl; [done|].
    rewrite fmap_cons in Hnd. apply NoDup_cons in Hnd as [Hy Hnd].
    rewrite bool_decide_eq_false_2 by (apply Hseen; by left).
    f_equal. apply IH; [done|].
    intros x Hx. assert (key x ∉ seen) by (apply Hseen; by right).
    assert (key x <> key y).
    { intros Heq. apply Hy. rewrite <- Heq. by apply list_elem_of_fmap_2. }
    set_solver. }
  intros Hnd. apply Hgen; [done|]. set_solver.
Qed.

(** Every key of the list that has not been seen is represented. *)
Lemma keep_first_covers (seen : gset K) (l : list A) (x : A) :
  x ∈ l -> key x ∉ seen -> exists y, y ∈ keep_first key seen l /\ key y = key x.
Proof.
  revert seen. induction l as [|y l IH]; intros seen Hx Hseen; simpl.
  - by apply elem_of_nil in Hx.
  - case_bool_decide as Hy.
    + apply elem_of_cons in Hx as [->|Hx]; [done|]. by apply IH.
    + destruct (decide (key y = key x)) as [Heq|Hne].
      * exists y. split; [by left|done].
      * apply elem_of_cons in Hx as [->|Hx]; [done|].
        destruct (IH (seen ∪ {[key y]}) Hx) as (z & Hz & Hk); [set_solver|].
        exists z. split; [by right|done].
Qed.

Lemma keep_first_elem (seen : gset K) (l : list A) (x : A) :
  x ∈ keep_first key seen l -> x ∈ l.
Proof. intros Hx. eapply elem_of_sublist; [done|apply keep_first_sublist]. Qed.

End KeepFirst.


(** ** The loops of the extractor and of the assembler *)

Section LoopFacts.
Variable cwd : string.
Variable _quiet : bool.
Variable Script_source : string -> string.
Variable names : string -> list jedi.Name.
Variable str_of_name : jedi.Name -> string.

Lemma jedi_def_to_def_fst (n : jedi.Name) (f : string) (lc : list Z) (s : list string) :
  fst (jedi_def_to_def cwd n f lc s) = fst (jedi_def_to_def cwd n f lc []).
Proof.
  unfold jedi_def_to_def.
  destruct (full_name_of_def cwd n false); [|done].
  by destruct (LineColToOffConverter.convert lc (jedi.line n) (jedi.column n)).
Qed.

Lemma jedi_def_to_def_stderr (n : jedi.Name) (f : string) (lc : list Z) (s : list string) :
  s `prefix_of` snd (jedi_def_to_def cwd n f lc s).
Proof.
  unfold jedi_def_to_def.
  destruct (full_name_of_def cwd n false); [|done].
  destruct (LineColToOffConverter.convert lc (jedi.line n) (jedi.column n)); [|done].
  simpl. by apply prefix_app_r.
Qed.

Lemma error_stderr (msg : string) (s : list string) :
  s `prefix_of` error _quiet msg s.
Proof. unfold error. destruct _quiet; simpl; [done|]. by apply prefix_app_r. Qed.

Lemma names_to_refs_cons (f : string) (lc : list Z) (n : jedi.Name)
  (todo : list jedi.Name) :
  names_to_refs cwd f lc (n :: todo)
  = (if jedi.is_definition n then []
     else match name_to_ref cwd n f lc with
          | Ok ref => [ref]
          | Raise _ => []
          end) ++ names_to_refs cwd f lc todo.
Proof.
  unfold names_to_refs. simpl.
  destruct (jedi.is_definition n); [done|].
  by destruct (name_to_ref cwd n f lc).
Qed.

Lemma get_defs_refs_loop_fst (f : string) (lc : list Z) (todo : list jedi.Name)
  (defs : list Def.t) (refs : list Ref.t) (s : list string) :
  fst (get_defs_refs_loop cwd _quiet str_of_name f lc todo defs refs s)
  = let* ds := names_to_defs cwd f lc todo in
    Ok (defs ++ ds, refs ++ names_to_refs cwd f lc todo).
Proof.
  revert defs refs s. induction todo as [|n todo IH]; intros defs refs s.
  - simpl. by rewrite !app_nil_r.
  - rewrite names_to_refs_cons. cbn [get_defs_refs_loop names_to_defs].
    destruct (jedi.is_definition n).
    + pose proof (jedi_def_to_def_fst n f lc s) as Hfst.
      destruct (jedi_def_to_def cwd n f lc s) as [[d|e] s'];
        simpl in Hfst; rewrite <- Hfst; simpl; [|done].
      rewrite IH. destruct (names_to_defs cwd f lc todo); simpl; [|done].
      by rewrite <- app_assoc.
    + destruct (name_to_ref cwd n f lc) as [r|e]; rewrite IH.
      * destruct (names_to_defs cwd f lc todo); simpl; [|done].
        by rewrite <- app_assoc.
      * done.
Qed.

Lemma get_defs_refs_loop_stderr (f : string) (lc : list Z) (todo : list jedi.Name)
  (defs : list Def.t) (refs : list Ref.t) (s : list string) :
  s `prefix_of` snd (get_defs_refs_loop cwd _quiet str_of_name f lc todo defs refs s).
Proof.
  revert defs refs s. induction todo as [|n todo IH]; intros defs refs s; [done|].
  cbn [get_defs_refs_loop]. destruct (jedi.is_definition n).
  - pose proof (jedi_def_to_def_stderr n f lc s) as Hs.
    destruct (jedi_def_to_def cwd n f lc s) as [[d|e] s']; simpl in Hs; [|done].
    etrans; [exact Hs|apply IH].
  - destruct (name_to_ref cwd n f lc) as [r|e]; [apply IH|].
    etrans; [apply error_stderr|apply IH].
Qed.

Lemma get_defs_refs_fst (f : string) (s : list string) :
  fst (get_defs_refs cwd _quiet Script_source names str_of_name f s)
  = let* ds := file_defs cwd Script_source names f in
    Ok (ds, file_refs cwd Script_source names f).
Proof. unfold get_defs_refs. by rewrite get_defs_refs_loop_fst. Qed.

Lemma collect_fst (files : list string) (defs : list Def.t) (refs : list Ref.t)
  (s : list string) :
  fst (collect cwd _quiet Script_source names str_of_name files defs refs s)
  = let* ds := all_defs cwd Script_source names files in
    Ok (defs ++ ds, refs ++ all_refs cwd Script_source names files).
Proof.
  revert defs refs s. induction files as [|f files IH]; intros defs refs s.
  - simpl. by rewrite !app_nil_r.
  - cbn [collect all_defs]. unfold all_refs. cbn [map concat].
    fold (all_refs cwd Script_source names files).
    pose proof (get_defs_refs_fst f s) as Hfst.
    destruct (get_defs_refs cwd _quiet Script_source names str_of_name f s)
      as [[[d r]|e] s']; simpl in Hfst.
    + destruct (file_defs cwd Script_source names f) as [d'|]; [|done].
      simpl in Hfst. injection Hfst as -> ->. rewrite IH. simpl.
      destruct (all_defs cwd Script_source names files); simpl; [|done].
      by rewrite <- !app_assoc.
    + destruct (file_defs cwd Script_source names f) as [d'|]; [done|].
      simpl in Hfst. simpl. done.
Qed.

End LoopFacts.

Lemma unique_defs_loop_eq (defs acc : list Def.t) (seen : gset string) :
  unique_defs_loop defs acc seen
  = (acc ++ keep_first Def.Path seen defs, seen ∪ list_to_set (Def.Path <$> defs)).
Proof.
  revert acc seen. induction defs as [|d defs IH]; intros acc seen; simpl.
  - rewrite app_nil_r. f_equal. set_solver.
  - case_bool_decide; simpl; rewrite IH.
    + f_equal. set_solver.
    + rewrite <- app_assoc. f_equal. set_solver.
Qed.

Lemma unique_refs_loop_eq (todo acc : list Ref.t)
  (seen : gset (string * string * string * Z * Z)) :
  unique_refs_loop todo acc seen
  = (acc ++ keep_first ref_key seen todo, seen ∪ list_to_set (ref_key <$> todo)).
Proof.
  revert acc seen. induction todo as [|r todo IH]; intros acc seen; simpl.
  - rewrite app_nil_r. f_equal. set_solver.
  - case_bool_decide; simpl; rewrite IH.
    + f_equal. set_solver.
    + rewrite <- app_assoc. f_equal. set_solver.
Qed.

Lemma add_module_defs_eq (mfs : list (string * string)) (defs : list Def.t) :
  add_module_defs mfs defs
  = rev (map (fun mf => module_def (fst mf) (snd mf)) mfs) ++ defs.
Proof.
  unfold add_module_defs. revert defs.
  induction mfs as [|mf mfs IH]; intros defs; simpl; [done|].
  rewrite IH, <- app_assoc. done.
Qed.

Lemma self_refs_NoDup (cwd : string) (ds : list Def.t) :
  NoDup (Def.Path <$> ds) -> NoDup (ref_key <$> map (self_ref cwd) ds).
Proof.
  intros Hnd.
  apply (NoDup_fmap_1 (fun k : string * string * string * Z * Z => k.1.1.1.1)).
  rewrite <- !list_fmap_compose.
  erewrite list_fmap_ext; [exact Hnd|]. by intros i d _.
Qed.

Lemma assemble_eq (cwd : string) (files : list string) (defs : list Def.t)
  (refs : list Ref.t) :
  let unique_defs := keep_first Def.Path ∅ (module_defs files ++ defs) in
  assemble cwd files defs refs
  = (unique_defs,
     map (self_ref cwd) unique_defs
     ++ keep_first ref_key
          (list_to_set (ref_key <$> map (self_ref cwd) unique_defs)) refs).
Proof.
  intros unique_defs. unfold assemble.
  rewrite add_module_defs_eq, map_map. simpl.
  fold (module_defs files). rewrite unique_defs_loop_eq. simpl.
  fold unique_defs. rewrite !unique_refs_loop_eq. simpl.
  rewrite keep_first_NoDup_id
    by (apply self_refs_NoDup, keep_first_NoDup).
  f_equal. f_equal. f_equal. set_solver.
Qed.

Section GraphFacts.
Variable cwd : string.
Variable _quiet : bool.
Variable Script_source : string -> string.
Variable names : string -> list jedi.Name.
Variable str_of_name : jedi.Name -> string.
Variable dict_items : list (string * json) -> list (string * json).
Variable json_dumps : json -> option Z -> string.
Variable str_of_Def : Def.t -> string.

Local Abbreviation graph_ :=
  (graph cwd _quiet Script_source names str_of_name dict_items json_dumps str_of_Def).

(** What a run of [graph] that prints a document has computed. *)
Lemma graph_Ok_inv (dir_ : string) (files : list string) (pretty : bool)
  (s s' : list string) (out : output) :
  graph_ dir_ files pretty s = (Ok out, s') ->
  exists ds,
    all_defs cwd Script_source names files = Ok ds
    /\ Defs out = keep_first Def.Path ∅ (module_defs files ++ ds)
    /\ Refs out
       = map (self_ref cwd) (Defs out)
         ++ keep_first ref_key
              (list_to_set (ref_key <$> map (self_ref cwd) (Defs out)))
              (all_refs cwd Script_source names files).
Proof.
  unfold graph. intros Hg.
  pose proof (collect_fst cwd _quiet Script_source names str_of_name files [] [] s)
    as Hc.
  destruct (collect cwd _quiet Script_source names str_of_name files [] [] s)
    as [[[defs refs]|e] s1]; [|done].
  simpl in Hc.
  destruct (all_defs cwd Script_source names files) as [ds|]; [|done].
  simpl in Hc. injection Hc as -> ->.
  rewrite assemble_eq in Hg. simpl in Hg.
  destruct (keep_first Def.Path ∅ (module_defs files ++ ds)) as [|d0 ud] eqn:Hud;
    [done|].
  injection Hg as <- _. simpl. eauto.
Qed.

(** [graph] prints a document as soon as no definition of any file fails
    and there is a file. *)
Lemma graph_total (dir_ : string) (files : list string) (pretty : bool)
  (s : list string) (ds : list Def.t) :
  all_defs cwd Script_source names files = Ok ds -> files <> [] ->
  exists out s', graph_ dir_ files pretty s = (Ok out, s').
Proof.
  intros Hds Hne. unfold graph.
  pose proof (collect_fst cwd _quiet Script_source names str_of_name files [] [] s)
    as Hc.
  destruct (collect cwd _quiet Script_source names str_of_name files [] [] s)
    as [[[defs refs]|e] s1]; rewrite Hds in Hc; simpl in Hc; [|done].
  injection Hc as -> ->.
  rewrite assemble_eq. simpl.
  destruct (keep_first Def.Path ∅ (module_defs files ++ ds)) as [|d0 ud] eqn:Hud;
    [|eauto].
  exfalso. unfold module_defs in Hud.
  destruct (rev files) as [|f fs] eqn:Hrev.
  { apply (f_equal (@rev string)) in Hrev. rewrite rev_involutive in Hrev. done. }
  rewrite <- map_rev, Hrev in Hud. simpl in Hud.
  rewrite bool_decide_eq_false_2 in Hud by set_solver. done.
Qed.

End GraphFacts.


(** ** Absolute and relative paths *)

Lemma normpath_abs (p : string) :
  path.isabs p = true -> path.isabs (path.normpath p) = true.
Proof.
  unfold path.isabs, path.normpath. intros Hp.
  destruct p as [|c p]; [done|]. cbn [Str.is_empty]. rewrite Hp.
  destruct (Str.startswith (String c p) "//" && negb (Str.startswith (String c p) "///"));
    cbn [Nat.eqb negb].
  - by destruct (Str.join "/" _).
  - by destruct (Str.join "/" _).
Qed.

Lemma abspath_abs (cwd p : string) :
  path.isabs cwd = true -> path.isabs (path.abspath cwd p) = true.
Proof.
  intros Hcwd. unfold path.abspath.
  destruct (path.isabs p) eqn:Hp; apply normpath_abs; [done|].
  unfold path.join2, path.isabs in *. rewrite Hp.
  assert (cwd <> "") by (intros ->; done).
  destruct (Str.is_empty cwd || Str.endswith_char cwd path.sep);
    by rewrite startswith_slash_app.
Qed.

Lemma join2_plain (a b : string) : plain a -> plain b -> plain (path.join2 a b).
Proof.
  intros [Ha Ha'] [Hb Hb']. unfold path.join2. rewrite Hb'.
  destruct (Str.is_empty a || Str.endswith_char a path.sep).
  - split; [by destruct a|]. by rewrite startswith_slash_app.
  - split; [by destruct a|]. by rewrite startswith_slash_app.
Qed.

Lemma fold_join2_plain (l : list string) (a : string) :
  plain a -> Forall plain l -> plain (fold_left path.join2 l a).
Proof.
  revert a. induction l as [|b l IH]; intros a Ha Hl; simpl; [done|].
  inversion Hl; subst. apply IH; [by apply join2_plain|done].
Qed.

Lemma nonempty_comps_plain (p : string) : Forall plain (path.nonempty_comps p).
Proof.
  apply Forall_forall. intros w [Hw Hin]%list_elem_of_filter.
  split; [done|].
  pose proof (split_no_leading_sep p) as Hall.
  rewrite Forall_forall in Hall. by apply Hall.
Qed.

Lemma relpath_not_abs (cwd p r : string) :
  path.relpath cwd p = Ok r -> path.isabs r = false.
Proof.
  unfold path.relpath. destruct (Str.is_empty p); [done|].
  set (start_list := path.nonempty_comps (path.abspath cwd ".")).
  set (path_list := path.nonempty_comps (path.abspath cwd p)).
  set (i := path.commonprefix_len start_list path_list).
  assert (Hall : Forall plain (repeat ".." (length start_list - i) ++ drop i path_list)).
  { apply Forall_app. split.
    - apply Forall_forall. intros w Hw%list_elem_of_In%repeat_spec. by subst.
    - apply Forall_drop, nonempty_comps_plain. }
  destruct (repeat ".." (length start_list - i) ++ drop i path_list) as [|a rest].
  - by intros [= <-].
  - simpl. intros [= <-]. inversion Hall; subst.
    by apply fold_join2_plain.
Qed.

(** ** Where the records of the extractor come from *)

Section Provenance.
Variable cwd : string.
Variable Script_source : string -> string.
Variable names : string -> list jedi.Name.

Lemma name_to_ref_Ok (n : jedi.Name) (f : string) (lc : list Z) (r : Ref.t) :
  name_to_ref cwd n f lc = Ok r ->
  Ref.Def r = false
  /\ path.relpath cwd (jedi.module_path n) = Ok (Ref.DefFile r)
  /\ Ref.File r = f
  /\ Ref.ToBuiltin r = jedi.in_builtin_module n
  /\ Ref.End_ r = Ref.Start r + Str.len (jedi.name n).
Proof.
  unfold name_to_ref.
  destruct (full_name_of_def cwd n true) as [fn|]; [simpl|done].
  destruct (String.eqb fn ""); [done|].
  destruct (LineColToOffConverter.convert lc (jedi.line n) (jedi.column n))
    as [[z|msg]|]; simpl; try done.
  - destruct (path.relpath cwd (jedi.module_path n)); simpl; [|done].
    by intros [= <-].
  - by destruct (path.relpath cwd (jedi.module_path n)).
Qed.

Lemma jedi_def_to_def_Ok (n : jedi.Name) (f : string) (lc : list Z) (d : Def.t) :
  fst (jedi_def_to_def cwd n f lc []) = Ok d ->
  Def.Name d = jedi.name n
  /\ Def.Kind d = jedi.type n
  /\ Def.DefEnd d = Def.DefStart d + Str.len (jedi.name n)
  /\ LineColToOffConverter.convert lc (jedi.line n) (jedi.column n)
     = Ok (LineColToOffConverter.Int (Def.DefStart d))
  /\ (exists full_name, full_name_of_def cwd n false = Ok full_name
        /\ Def.Path d = Str.replace "." "/" full_name).
Proof.
  unfold jedi_def_to_def.
  destruct (full_name_of_def cwd n false) as [fn|]; [|done].
  destruct (LineColToOffConverter.convert lc (jedi.line n) (jedi.column n))
    as [[z|msg]|]; simpl; try done.
  - destruct (path.relpath cwd (jedi.module_path n)); simpl; [|done].
    intros [= <-]. simpl. eauto 10.
  - by destruct (path.relpath cwd (jedi.module_path n)).
Qed.

Lemma names_to_refs_elem (f : string) (lc : list Z) (todo : list jedi.Name) (r : Ref.t) :
  r ∈ names_to_refs cwd f lc todo <->
  exists n, n ∈ todo /\ jedi.is_definition n = false /\ name_to_ref cwd n f lc = Ok r.
Proof.
  unfold names_to_refs. rewrite list_elem_of_omap. split.
  - intros (n & Hn & Hr). exists n. split; [done|].
    destruct (jedi.is_definition n); [done|].
    destruct (name_to_ref cwd n f lc); [|done]. by injection Hr as ->.
  - intros (n & Hn & Hd & Hr). exists n. by rewrite Hd, Hr.
Qed.

Lemma all_refs_elem (files : list string) (r : Ref.t) :
  r ∈ all_refs cwd Script_source names files <->
  exists f n, f ∈ files /\ n ∈ names f /\ jedi.is_definition n = false
    /\ name_to_ref cwd n f (LineColToOffConverter.init (Script_source f)) = Ok r.
Proof.
  unfold all_refs. rewrite elem_of_concat, map_fmap. split.
  - intros (l & Hr & (f & -> & Hf)%list_elem_of_fmap).
    apply names_to_refs_elem in Hr as (n & ? & ? & ?). eauto 10.
  - intros (f & n & Hf & Hn & Hd & Hr).
    exists (file_refs cwd Script_source names f). split.
    + apply names_to_refs_elem. eauto.
    + apply list_elem_of_fmap. eauto.
Qed.

(** The definitions of a file are those of the engine, in its order. *)
Lemma names_to_defs_Forall2 (f : string) (lc : list Z) (todo : list jedi.Name)
  (ds : list Def.t) :
  names_to_defs cwd f lc todo = Ok ds <->
  Forall2 (fun n d => fst (jedi_def_to_def cwd n f lc []) = Ok d)
    (filter (fun n => jedi.is_definition n = true) todo) ds.
Proof.
  revert ds. induction todo as [|n todo IH]; intros ds; simpl.
  - split; [intros [= <-]; constructor|by intros ->%Forall2_nil_inv_l].
  - rewrite filter_cons. destruct (jedi.is_definition n) eqn:Hd.
    + rewrite decide_True by done. split.
      * destruct (jedi_def_to_def cwd n f lc []).1 as [d|] eqn:Hn; [simpl|done].
        destruct (names_to_defs cwd f lc todo) as [ds'|]; [simpl|done].
        intros [= <-]. constructor; [done|]. by apply IH.
      * intros (d & ds' & Hn & Hrest & ->)%Forall2_cons_inv_l.
        rewrite Hn. apply IH in Hrest as ->. done.
    + rewrite decide_False by done. apply IH.
Qed.

Lemma all_defs_concat (files : list string) (ds : list Def.t) :
  all_defs cwd Script_source names files = Ok ds <->
  exists dss, ds = concat dss
    /\ Forall2 (fun f d => file_defs cwd Script_source names f = Ok d) files dss.
Proof.
  revert ds. induction files as [|f files IH]; intros ds; simpl.
  - split.
    + intros [= <-]. exists []. split; [done|constructor].
    + intros (dss & -> & ->%Forall2_nil_inv_l). done.
  - split.
    + destruct (file_defs cwd Script_source names f) as [d|] eqn:Hf; [simpl|done].
      destruct (all_defs cwd Script_source names files) as [ds'|]; [simpl|done].
      intros [= <-]. destruct (proj1 (IH ds') eq_refl) as (dss & -> & Hall).
      exists (d :: dss). split; [done|]. by constructor.
    + intros (dss & -> & (d & dss' & Hd & Hrest & ->)%Forall2_cons_inv_l).
      rewrite Hd. simpl.
      rewrite (proj2 (IH (concat dss'))) by eauto. done.
Qed.

Lemma all_defs_elem (files : list string) (ds : list Def.t) (d : Def.t) :
  all_defs cwd Script_source names files = Ok ds -> d ∈ ds ->
  exists f n, f ∈ files /\ n ∈ names f /\ jedi.is_definition n = true
    /\ fst (jedi_def_to_def cwd n f (LineColToOffConverter.init (Script_source f)) [])
       = Ok d.
Proof.
  intros (dss & -> & Hall)%all_defs_concat (l & Hd & Hl)%elem_of_concat.
  apply list_elem_of_lookup in Hl as [i Hi].
  destruct (Forall2_lookup_r _ _ _ _ _ Hall Hi) as (f & Hf & Hfd).
  apply names_to_defs_Forall2 in Hfd.
  apply list_elem_of_lookup in Hd as [j Hj].
  destruct (Forall2_lookup_r _ _ _ _ _ Hfd Hj) as (n & Hn & Hnd).
  apply list_elem_of_lookup_2 in Hn. apply list_elem_of_filter in Hn as [? ?].
  exists f, n. split; [by eapply list_elem_of_lookup_2|done].
Qed.

End Provenance.

Lemma filter_none {A : Type} (P : A -> Prop) `{forall x, Decision (P x)} (l : list A) :
  (forall x, x ∈ l -> ~ P x) -> filter P l = [].
Proof.
  induction l as [|x l IH]; intros Hl; [done|].
  rewrite filter_cons, decide_False by (apply Hl; by left).
  apply IH. intros y Hy. apply Hl. by right.
Qed.

(** In a list without repeated paths, exactly one definition matches the
    self-reference of one of its members. *)
Lemma one_match (cwd : string) (l : list Def.t) (D : Def.t) :
  NoDup (Def.Path <$> l) -> D ∈ l ->
  length (filter (matches (self_ref cwd D)) l) = 1%nat.
Proof.
  induction l as [|x l IH]; intros Hnd HD; [by apply elem_of_nil in HD|].
  rewrite fmap_cons in Hnd. apply NoDup_cons in Hnd as [Hx Hnd].
  rewrite filter_cons. destruct (decide (matches (self_ref cwd D) x)) as [Hm|Hm].
  - destruct Hm as (Hpath & _). simpl in Hpath.
    rewrite filter_none; [done|].
    intros y Hy (Hpy & _). simpl in Hpy.
    apply Hx. rewrite Hpath, <- Hpy. by apply list_elem_of_fmap_2.
  - apply elem_of_cons in HD as [->|HD]; [|by apply IH].
    exfalso. apply Hm. by repeat split.
Qed.

(** * The claims *)

Section Claims.
Variable cwd : string.
Variable _quiet : bool.
Variable Script_source : string -> string.
Variable names : string -> list jedi.Name.
Variable str_of_name : jedi.Name -> string.
Variable dict_items : list (string * json) -> list (string * json).
Variable json_dumps : json -> option Z -> string.
Variable str_of_Def : Def.t -> string.

Local Abbreviation graph_ :=
  (graph cwd _quiet Script_source names str_of_name dict_items json_dumps str_of_Def).
Local Abbreviation all_defs_ := (all_defs cwd Script_source names).
Local Abbreviation all_refs_ := (all_refs cwd Script_source names).

(** C7. In the document of a run, no two definitions have the same Path;
    the definitions are what the de-duplication loop leaves of the combined
    list, and a definition is kept exactly when it is the first of that list
    with its Path. *)
Theorem C7_unique_paths_first_kept (dir_ : string) (files : list string)
  (pretty : bool) (s s' : list string) (out : output) :
  graph_ dir_ files pretty s = (Ok out, s') ->
  NoDup (Def.Path <$> Defs out)
  /\ exists ds,
       all_defs_ files = Ok ds
       /\ let defs :=
            add_module_defs (map (fun f => (filename_to_module_name f, f)) files) ds in
          Defs out = fst (unique_defs_loop defs [] ∅)
          /\ forall d, d ∈ Defs out <->
               exists pre post, defs = pre ++ d :: post
                 /\ forall y, y ∈ pre -> Def.Path y <> Def.Path d.
Proof.
  intros (ds & Hds & HD & _)%graph_Ok_inv.
  split; [rewrite HD; apply keep_first_NoDup|].
  exists ds. split; [done|]. intros defs.
  assert (Hdefs : defs = module_defs files ++ ds).
  { unfold defs. by rewrite add_module_defs_eq, map_map. }
  rewrite Hdefs, unique_defs_loop_eq, HD. simpl. split; [done|].
  intros d. split.
  - apply keep_first_is_first.
  - intros (pre & post & -> & Hpre). apply keep_first_keeps; [set_solver|done].
Qed.

(** C6. In the document of a run, every definition has its synthesized
    self-reference, with Def = true and the span, Path and File of the
    definition; and for every reference with Def = true exactly one
    definition of the document has its DefPath, its File and its span. *)
Theorem C6_self_references (dir_ : string) (files : list string)
  (pretty : bool) (s s' : list string) (out : output) :
  graph_ dir_ files pretty s = (Ok out, s') ->
  (forall D, D ∈ Defs out ->
     exists R, R ∈ Refs out /\ R = self_ref cwd D /\ Ref.Def R = true
       /\ Ref.Start R = Def.DefStart D /\ Ref.End_ R = Def.DefEnd D
       /\ matches R D)
  /\ (forall R, R ∈ Refs out -> Ref.Def R = true ->
        length (filter (matches R) (Defs out)) = 1%nat).
Proof.
  intros (ds & Hds & HD & HR)%graph_Ok_inv. split.
  - intros D HDin. exists (self_ref cwd D). rewrite HR.
    split; [|by repeat split].
    apply elem_of_app. left. rewrite map_fmap. by apply list_elem_of_fmap_2.
  - intros R HRin Hdef. rewrite HR in HRin.
    apply elem_of_app in HRin as [HRin|HRin].
    + rewrite map_fmap in HRin.
      apply list_elem_of_fmap in HRin as (D & -> & HDin).
      apply one_match; [|done]. rewrite HD. apply keep_first_NoDup.
    + apply keep_first_elem, all_refs_elem in HRin as (f & n & _ & _ & _ & Hn).
      apply name_to_ref_Ok in Hn as (Hfalse & _). congruence.
Qed.

(** C8 (amended). The de-duplication of definitions iterates over the
    combined list in this order: the synthesized module definitions first,
    in the reverse of the order of the input files, then the definitions of
    the files, file after file in input order and in the order of the engine
    within a file; it keeps the first occurrence of each Path, in that
    order. *)
Theorem C8_iteration_order (dir_ : string) (files : list string)
  (pretty : bool) (s s' : list string) (out : output) :
  graph_ dir_ files pretty s = (Ok out, s') ->
  exists dss,
    Forall2
      (fun f d =>
         Forall2
           (fun n D =>
              fst (jedi_def_to_def cwd n f
                     (LineColToOffConverter.init (Script_source f)) []) = Ok D)
           (filter (fun n => jedi.is_definition n = true) (names f)) d)
      files dss
    /\ let defs :=
         add_module_defs (map (fun f => (filename_to_module_name f, f)) files)
           (concat dss) in
       defs = rev (map (fun f => module_def (filename_to_module_name f) f) files)
              ++ concat dss
       /\ Defs out = fst (unique_defs_loop defs [] ∅)
       /\ Defs out = keep_first Def.Path ∅ defs
       /\ sublist (Defs out) defs.
Proof.
  intros (ds & Hds & HD & _)%graph_Ok_inv.
  apply all_defs_concat in Hds as (dss & -> & Hall).
  exists dss. split.
  - eapply Forall2_impl; [exact Hall|].
    intros f d Hf. by apply names_to_defs_Forall2.
  - intros defs.
    assert (Hdefs : defs = module_defs files ++ concat dss).
    { unfold defs. by rewrite add_module_defs_eq, map_map. }
    split; [done|]. rewrite Hdefs, unique_defs_loop_eq, HD. simpl.
    repeat split. apply keep_first_sublist.
Qed.

(** C2 (amended). In the document of a run every definition has
    DefStart <= DefEnd. A definition that comes from the extractor has
    DefEnd = DefStart + len(Name), so DefStart < DefEnd when its name is not
    empty; the module definitions that the assembler synthesizes have
    DefStart = DefEnd = 0. *)
Theorem C2_spans (dir_ : string) (files : list string)
  (pretty : bool) (s s' : list string) (out : output) :
  graph_ dir_ files pretty s = (Ok out, s') ->
  forall D, D ∈ Defs out ->
    Def.DefStart D <= Def.DefEnd D
    /\ ((D ∈ module_defs files /\ Def.Kind D = "module"
         /\ Def.DefStart D = 0 /\ Def.DefEnd D = 0)
        \/ ((exists f n, f ∈ files /\ n ∈ names f /\ jedi.is_definition n = true
               /\ fst (jedi_def_to_def cwd n f
                         (LineColToOffConverter.init (Script_source f)) []) = Ok D)
            /\ Def.DefEnd D = Def.DefStart D + Str.len (Def.Name D)
            /\ (Def.Name D <> "" -> Def.DefStart D < Def.DefEnd D))).
Proof.
  intros (ds & Hds & HD & _)%graph_Ok_inv D HDin.
  rewrite HD in HDin. apply keep_first_elem, elem_of_app in HDin as [Hm|He].
  - assert (Hmod : Def.Kind D = "module" /\ Def.DefStart D = 0 /\ Def.DefEnd D = 0).
    { unfold module_defs in Hm. apply list_elem_of_In, in_rev, in_map_iff in Hm.
      destruct Hm as (f & <- & _). done. }
    destruct Hmod as (? & ? & ?). split; [lia|]. by left.
  - destruct (all_defs_elem _ _ _ _ _ _ Hds He) as (f & n & Hf & Hn & Hd & HOk).
    pose proof (jedi_def_to_def_Ok _ _ _ _ _ HOk) as (Hname & _ & Hend & _).
    rewrite <- Hname in Hend.
    assert (0 <= Str.len (Def.Name D)) by (unfold Str.len; lia).
    split; [lia|]. right. split; [eauto 10|]. split; [done|].
    intros Hne. destruct (Def.Name D); [done|]. unfold Str.len in *. simpl in *. lia.
Qed.

(** C10. With an absolute working directory: every synthesized
    self-reference carries the absolute path of the File of its definition
    as DefFile, and ToBuiltin = false; every reference of the extractor
    carries the relative path that [relpath] gives, which is not absolute,
    and Def = false. So no reference of the extractor has the key of a
    self-reference, the references of the extractor are de-duplicated among
    themselves only, and a reference of the extractor and the self-reference
    of a definition at the same place are both in the document. *)
Theorem C10_self_and_extracted (dir_ : string) (files : list string)
  (pretty : bool) (s s' : list string) (out : output) :
  path.isabs cwd = true ->
  graph_ dir_ files pretty s = (Ok out, s') ->
  (forall D, D ∈ Defs out ->
     self_ref cwd D ∈ Refs out
     /\ Ref.DefFile (self_ref cwd D) = path.abspath cwd (Def.File D)
     /\ path.isabs (Ref.DefFile (self_ref cwd D)) = true
     /\ Ref.ToBuiltin (self_ref cwd D) = false)
  /\ (forall R, R ∈ all_refs_ files ->
        Ref.Def R = false /\ path.isabs (Ref.DefFile R) = false
        /\ exists n, path.relpath cwd (jedi.module_path n) = Ok (Ref.DefFile R))
  /\ (forall D R, R ∈ all_refs_ files -> ref_key R <> ref_key (self_ref cwd D))
  /\ Refs out = map (self_ref cwd) (Defs out) ++ keep_first ref_key ∅ (all_refs_ files)
  /\ (forall R, R ∈ all_refs_ files ->
        exists R', R' ∈ Refs out /\ Ref.Def R' = false /\ ref_key R' = ref_key R)
  /\ (forall pre R post, all_refs_ files = pre ++ R :: post ->
        (forall y, y ∈ pre -> ref_key y <> ref_key R) -> R ∈ Refs out).
Proof.
  intros Hcwd (ds & Hds & HD & HR)%graph_Ok_inv.
  assert (Hext : forall R, R ∈ all_refs_ files ->
            Ref.Def R = false /\ path.isabs (Ref.DefFile R) = false
            /\ exists n, path.relpath cwd (jedi.module_path n) = Ok (Ref.DefFile R)).
  { intros R (f & n & _ & _ & _ & Hn)%all_refs_elem.
    apply name_to_ref_Ok in Hn as (Hdef & Hrel & _).
    repeat split; [done|by eapply relpath_not_abs|by exists n]. }
  assert (Hkey : forall D R, R ∈ all_refs_ files -> ref_key R <> ref_key (self_ref cwd D)).
  { intros D R (_ & Hrel & _)%Hext Heq.
    assert (Ref.DefFile R = path.abspath cwd (Def.File D)) as Hfile
      by (unfold ref_key in Heq; simpl in Heq; congruence).
    rewrite Hfile, abspath_abs in Hrel; done. }
  assert (Hrefs : Refs out
            = map (self_ref cwd) (Defs out) ++ keep_first ref_key ∅ (all_refs_ files)).
  { rewrite HR. f_equal.
    rewrite <- (keep_first_irrelevant ref_key ∅
                  (list_to_set (ref_key <$> map (self_ref cwd) (Defs out)))).
    - f_equal. set_solver.
    - intros R HRin (k & Hk & Hin)%elem_of_list_to_set%list_elem_of_fmap.
      rewrite map_fmap in Hin. apply list_elem_of_fmap in Hin as (D & -> & _).
      by apply (Hkey D R). }
  repeat split.
  - rewrite Hrefs. apply elem_of_app. left. rewrite map_fmap.
    by apply list_elem_of_fmap_2.
  - by apply abspath_abs.
  - by apply Hext.
  - by apply Hext.
  - by apply Hext.
  - done.
  - done.
  - intros R HRin.
    destruct (keep_first_covers ref_key ∅ _ _ HRin) as (R' & HR' & Hk); [set_solver|].
    exists R'. repeat split; [|by apply Hext, (keep_first_elem ref_key ∅)|done].
    rewrite Hrefs. apply elem_of_app. by right.
  - intros pre R post Heq Hpre. rewrite Hrefs, Heq. apply elem_of_app. right.
    apply keep_first_keeps; [set_solver|done].
Qed.

End Claims.

(** ** The scope walk of the path resolver *)

Lemma Name_parent_ind (P : jedi.Name -> Prop) :
  (forall p, (forall q, jedi.parent p = Some q -> P q) -> P p) ->
  forall p, P p.
Proof.
  intros Hstep.
  assert (Hn : forall n p, (depth p < n)%nat -> P p).
  { induction n as [|n IH]; intros p Hp; [lia|].
    apply Hstep. intros q Hq. apply IH.
    destruct p as [? ? ? ? ? ? ? up ? ?]. simpl in Hq. subst up. simpl in Hp. lia. }
  intros p. apply (Hn (S (depth p))). lia.
Qed.

Lemma enclosing_class_unfold (p : jedi.Name) :
  enclosing_class p
  = if String.eqb (jedi.type p) "class" then Ok p
    else match jedi.parent p with
         | Some q => enclosing_class q
         | None => Raise (AttributeError "NoneType object has no attribute name")
         end.
Proof. by destruct p. Qed.

(** The walk stops at the nearest scope of type class, and it finds it
    whenever there is one. *)
Lemma enclosing_class_nearest (p cls : jedi.Name) :
  enclosing_class p = Ok cls <->
  exists k, ancestor k p = Some cls /\ jedi.type cls = "class"
    /\ forall j, (j < k)%nat ->
         exists q, ancestor j p = Some q /\ jedi.type q <> "class".
Proof.
  split.
  - revert cls. induction p as [p IH] using Name_parent_ind. intros cls.
    rewrite enclosing_class_unfold.
    destruct (String.eqb_spec (jedi.type p) "class") as [Hc|Hc].
    + intros [= <-]. exists O. repeat split; [done|]. intros j Hj. lia.
    + destruct (jedi.parent p) as [q|] eqn:Hq; [|done].
      intros (k & Hk & Hcls & Hbelow)%(IH q eq_refl).
      exists (S k). simpl. rewrite Hq. repeat split; [done..|].
      intros [|j] Hj.
      * exists p. done.
      * simpl. rewrite Hq. apply Hbelow. lia.
  - intros (k & Hk & Hcls & Hbelow). revert p Hk Hbelow.
    induction k as [|k IH]; intros p Hk Hbelow; rewrite enclosing_class_unfold.
    + simpl in Hk. injection Hk as ->. by rewrite Hcls.
    + destruct (Hbelow O) as (q0 & [= <-] & Hp); [lia|].
      rewrite (proj2 (String.eqb_neq _ _) Hp).
      simpl in Hk. destruct (jedi.parent p) as [q|] eqn:Hq; [|done].
      apply IH; [done|]. intros j Hj.
      destruct (Hbelow (S j)) as (q' & Hq' & ?); [lia|].
      simpl in Hq'. rewrite Hq in Hq'. eauto.
Qed.

(** What the branch for [self.*] definitions computes. For a definition of
    type statement that is not built in, whose enclosing scope is a function
    and whose name is [self], the walk ends at the nearest scope of type
    class, and the name returned is the full name of that class followed by
    [def_.name], which the guard of the branch has just found to be [self]. *)
Lemma self_statement_path (cwd : string) (def_ p cls : jedi.Name) :
  jedi.in_builtin_module def_ = false ->
  jedi.type def_ = "statement" ->
  jedi.parent def_ = Some p ->
  jedi.type p = "function" ->
  jedi.name def_ = "self" ->
  enclosing_class p = Ok cls ->
  full_name_of_def cwd def_ false
  = Ok (path.join2
          (Str.replace "/" "." (supermodule_path (jedi.module_path def_)))
          (jedi.full_name cls +:+ ".self"))
  /\ exists k, ancestor (S k) def_ = Some cls /\ jedi.type cls = "class"
       /\ forall j, (j < k)%nat ->
            exists q, ancestor (S j) def_ = Some q /\ jedi.type q <> "class".
Proof.
  intros Hb Ht Hp Hf Hn Hcls. split.
  - unfold full_name_of_def, jedi.call_parent.
    rewrite Hb, Ht, Hp, Hn.
    change (String.eqb "statement" "statement") with true.
    change (String.eqb "self" "self") with true.
    cbn [bind]. rewrite Hf.
    change (String.eqb "function" "function") with true.
    cbn [andb]. rewrite Hcls. reflexivity.
  - apply enclosing_class_nearest in Hcls as (k & Hk & Hc & Hbelow).
    exists k. simpl. rewrite Hp. done.
Qed.

(** C1. The branch that its comment calls a kludge for [self.*]
    definitions anchors the name at the class and then appends the name of
    the occurrence, which is the receiver [self], where the attribute was
    meant. In [pkg/a.py] the assignments [self.x = 1] and [self.y = 2] both
    get the name [pkg/a.C.self]; the document of the run has the one
    definition [pkg/a/C/self], placed at the first assignment, and none for
    the second assignment at offset 60: no Path ends in [x] or [y]. *)
Theorem C1_attributes_collapse :
  let out := output_of TwoAttributes.run in
  fst TwoAttributes.run = Ok out
  /\ full_name_of_def Scenario.cwd TwoAttributes.self_x false = Ok "pkg/a.C.self"
  /\ full_name_of_def Scenario.cwd TwoAttributes.self_y false = Ok "pkg/a.C.self"
  /\ map Def.Path (Defs out)
     = ["pkg/a"; "pkg/a/C"; "pkg/a/C/__init__"; "pkg/a/C/__init__/self"; "pkg/a/C/self"]
  /\ List.filter (fun D => String.eqb (Def.Path D) "pkg/a/C/self") (Defs out)
     = [Def.mk "pkg/a/C/self" "statement" "self" "pkg/a.py" 41 45 true "" None]
  /\ LineColToOffConverter.convert (LineColToOffConverter.init TwoAttributes.source) 4 8
     = Ok (LineColToOffConverter.Int 60)
  /\ Forall (fun D => Def.DefStart D <> 60) (Defs out).
Proof.
  repeat split; try (vm_compute; reflexivity).
  vm_compute. repeat constructor; discriminate.
Qed.

(** ** References that cannot be resolved *)

Section Unresolved.
Variable cwd : string.
Variable _quiet : bool.
Variable str_of_name : jedi.Name -> string.

(** A module path outside the working directory without a marker
    component cannot be made relative. *)
Lemma no_marker_raises (module_path rp : string) :
  path.relpath cwd module_path = Ok rp ->
  Str.startswith rp ".." = true ->
  first_index (fun cmpt => String.eqb cmpt "site-packages"
                           || String.eqb cmpt "dist-packages")
    (Str.split path.sep module_path) = None ->
  first_index (fun cmpt => Str.startswith cmpt "python")
    (Str.split path.sep module_path) = None ->
  abs_module_path_to_relative_module_path cwd module_path
  = Raise (Exception ("could not convert absolute module path "
                      +:+ module_path +:+ " to relative module path")).
Proof.
  intros Hrp Hup Hsite Hpy. unfold abs_module_path_to_relative_module_path.
  rewrite Hrp. cbn [bind]. rewrite Hup. cbn [negb]. by rewrite Hsite, Hpy.
Qed.

Lemma no_marker_full_name (n : jedi.Name) (rp : string) :
  jedi.in_builtin_module n = false ->
  path.relpath cwd (jedi.module_path n) = Ok rp ->
  Str.startswith rp ".." = true ->
  first_index (fun cmpt => String.eqb cmpt "site-packages"
                           || String.eqb cmpt "dist-packages")
    (Str.split path.sep (jedi.module_path n)) = None ->
  first_index (fun cmpt => Str.startswith cmpt "python")
    (Str.split path.sep (jedi.module_path n)) = None ->
  exists e, full_name_of_def cwd n true = Raise e.
Proof.
  intros Hb Hrp Hup Hsite Hpy. unfold full_name_of_def. rewrite Hb.
  rewrite (no_marker_raises _ _ Hrp Hup Hsite Hpy).
  match goal with |- context [bind ?r _] => destruct r end; simpl; eauto.
Qed.

Lemma name_to_ref_unresolved (n : jedi.Name) (f : string) (lc : list Z) :
  full_name_of_def cwd n true = Ok ""
  \/ (exists e, full_name_of_def cwd n true = Raise e) ->
  exists e, name_to_ref cwd n f lc = Raise e.
Proof.
  unfold name_to_ref. intros [->|[e ->]]; simpl; eauto.
Qed.

Lemma names_to_defs_skip (f : string) (lc : list Z) (n : jedi.Name)
  (before todo : list jedi.Name) :
  jedi.is_definition n = false ->
  names_to_defs cwd f lc (before ++ n :: todo) = names_to_defs cwd f lc (before ++ todo).
Proof.
  intros Hn. induction before as [|m before IH]; simpl.
  - by rewrite Hn.
  - by rewrite IH.
Qed.

Lemma names_to_refs_skip (f : string) (lc : list Z) (n : jedi.Name)
  (before todo : list jedi.Name) (e : exn) :
  name_to_ref cwd n f lc = Raise e ->
  names_to_refs cwd f lc (before ++ n :: todo) = names_to_refs cwd f lc (before ++ todo).
Proof.
  intros Hn. induction before as [|m before IH].
  - cbn [app]. rewrite names_to_refs_cons, Hn. by destruct (jedi.is_definition n).
  - cbn [app]. by rewrite !names_to_refs_cons, IH.
Qed.

(** C5 (amended). A reference whose path resolution fails (it yields the
    empty path, or it raises, as it does for a module path outside the
    working directory without a marker component) is not converted: the loop
    hands the failure to [error], which writes it to the diagnostic stream
    unless the quiet flag is set, and goes on with the remaining
    occurrences; the reference adds nothing to the lists of the file, which
    are those of the file without the occurrence. *)
Theorem C5_unresolved_reference (f : string) (lc : list Z) (n : jedi.Name)
  (todo : list jedi.Name) (defs : list Def.t) (refs : list Ref.t) (s : list string) :
  jedi.is_definition n = false ->
  (full_name_of_def cwd n true = Ok ""
   \/ (exists e, full_name_of_def cwd n true = Raise e)
   \/ (jedi.in_builtin_module n = false
       /\ (exists rp, path.relpath cwd (jedi.module_path n) = Ok rp
             /\ Str.startswith rp ".." = true)
       /\ first_index (fun cmpt => String.eqb cmpt "site-packages"
                                   || String.eqb cmpt "dist-packages")
            (Str.split path.sep (jedi.module_path n)) = None
       /\ first_index (fun cmpt => Str.startswith cmpt "python")
            (Str.split path.sep (jedi.module_path n)) = None)) ->
  exists e,
    name_to_ref cwd n f lc = Raise e
    /\ get_defs_refs_loop cwd _quiet str_of_name f lc (n :: todo) defs refs s
       = get_defs_refs_loop cwd _quiet str_of_name f lc todo defs refs
           (if _quiet then s
            else s ++ [failed_to_convert str_of_name n f e +:+ nl])
    /\ (_quiet = false ->
        (s ++ [failed_to_convert str_of_name n f e +:+ nl])
          `prefix_of` snd (get_defs_refs_loop cwd _quiet str_of_name f lc
                             (n :: todo) defs refs s))
    /\ forall before,
         names_to_refs cwd f lc (before ++ n :: todo)
         = names_to_refs cwd f lc (before ++ todo)
         /\ names_to_defs cwd f lc (before ++ n :: todo)
            = names_to_defs cwd f lc (before ++ todo).
Proof.
  intros Hdef Hfail.
  assert (Hfail' : full_name_of_def cwd n true = Ok ""
                   \/ (exists e, full_name_of_def cwd n true = Raise e)).
  { destruct Hfail as [?|[?|(Hb & (rp & Hrp & Hup) & Hsite & Hpy)]]; [by left|by right|].
    right. by eapply no_marker_full_name. }
  destruct (name_to_ref_unresolved n f lc Hfail') as [e He].
  exists e. split; [done|].
  assert (Hstep : get_defs_refs_loop cwd _quiet str_of_name f lc (n :: todo) defs refs s
       = get_defs_refs_loop cwd _quiet str_of_name f lc todo defs refs
           (if _quiet then s
            else s ++ [failed_to_convert str_of_name n f e +:+ nl])).
  { cbn [get_defs_refs_loop]. rewrite Hdef, He. unfold error. by destruct _quiet. }
  split; [done|]. split.
  - intros Hq. rewrite Hstep, Hq. apply get_defs_refs_loop_stderr.
  - intros before. split; [by eapply names_to_refs_skip|by apply names_to_defs_skip].
Qed.

End Unresolved.

(** The use of [lib] in [pkg/n.py], whose file [/opt/other/lib.py] is outside
    the working directory [/home/u/proj]. *)
Lemma C5_witness :
  exists e,
    name_to_ref Scenario.cwd Scenario.ref_lib "pkg/n.py"
      (LineColToOffConverter.init Scenario.source_n) = Raise e
    /\ get_defs_refs_loop Scenario.cwd false Scenario.str_of_name "pkg/n.py"
         (LineColToOffConverter.init Scenario.source_n)
         [Scenario.ref_lib; Scenario.ref_os; Scenario.y_def] [] [] []
       = get_defs_refs_loop Scenario.cwd false Scenario.str_of_name "pkg/n.py"
           (LineColToOffConverter.init Scenario.source_n)
           [Scenario.ref_os; Scenario.y_def] [] []
           [failed_to_convert Scenario.str_of_name Scenario.ref_lib "pkg/n.py" e +:+ nl].
Proof.
  destruct (C5_unresolved_reference Scenario.cwd false Scenario.str_of_name
              "pkg/n.py" (LineColToOffConverter.init Scenario.source_n)
              Scenario.ref_lib [Scenario.ref_os; Scenario.y_def] [] [] [])
    as (e & He & Hstep & _).
  - reflexivity.
  - right. right. split; [reflexivity|]. split.
    + exists "../../../opt/other/lib.py". split; vm_compute; reflexivity.
    + split; vm_compute; reflexivity.
  - exists e. split; [exact He|exact Hstep].
Defined.

(** With the quiet flag set, the failure for the use of [lib] is written
    nowhere: the diagnostic stream of the file holds the line of the one
    definition and nothing else, while without the flag it starts with the
    report. *)
Lemma C5_counterexample :
  name_to_ref Scenario.cwd Scenario.ref_lib "pkg/n.py"
    (LineColToOffConverter.init Scenario.source_n)
  = Raise (Exception
             "could not convert absolute module path /opt/other/lib.py to relative module path")
  /\ get_defs_refs Scenario.cwd true Scenario.Script_source Scenario.names
       Scenario.str_of_name "pkg/n.py" []
     = (Ok ([Def.mk "pkg/n/y" "statement" "y" "pkg/n.py" 15 16 true "" None],
            [Ref.mk "os" "../../../usr/lib/python2.7/os.py" false "pkg/n.py" 12 14 false]),
        ["pkg/n.y" +:+ nl])
  /\ snd (get_defs_refs Scenario.cwd false Scenario.Script_source Scenario.names
            Scenario.str_of_name "pkg/n.py" [])
     = ["failed to convert ref (<Definition lib>) in source file pkg/n.py: could not convert absolute module path /opt/other/lib.py to relative module path" +:+ nl;
        "pkg/n.y" +:+ nl].
Proof. repeat split; vm_compute; reflexivity. Qed.

(** ** A position beyond the text *)

(** C4. [bad.py] has one line of text. For a definition that the engine
    places on line 3, [convert] returns the pair with the message, the sum
    with the length of the name raises, nothing catches it, and the run over
    [bad.py] and [pkg/n.py] ends there without a document, although
    [pkg/n.py] has nothing wrong. For a use placed on line 3 the same
    failure is caught and reported, and the run goes on. Line 2, one beyond
    the text, is not out of range for [convert]. *)
Lemma C4_definition_beyond_text_aborts :
  LineColToOffConverter.convert (LineColToOffConverter.init Scenario.source_bad) 3 0
  = Ok (LineColToOffConverter.NoneAnd "requested line out of bounds 3 > 1")
  /\ Scenario.run false id ["bad.py"; "pkg/n.py"]
     = (Raise (TypeError "can only concatenate tuple (not int) to tuple"),
        ["bad.x" +:+ nl; "bad.x" +:+ nl])
  /\ get_defs_refs Scenario.cwd false Scenario.Script_source Scenario.names
       Scenario.str_of_name "use.py" []
     = (Ok ([Def.mk "bad/x" "statement" "x" "bad.py" 0 1 true "" None], []),
        ["failed to convert ref (<Definition x>) in source file use.py: can only concatenate tuple (not int) to tuple" +:+ nl;
         "bad.x" +:+ nl])
  /\ LineColToOffConverter.convert (LineColToOffConverter.init Scenario.source_bad) 2 0
     = Ok (LineColToOffConverter.Int 6).
Proof. repeat split; vm_compute; reflexivity. Qed.

(** ** The claims about the document, on concrete runs *)

(** The run over [pkg/m.py] and [pkg/n.py] prints a document. *)
Lemma run_m_n :
  let r := Scenario.run false id ["pkg/m.py"; "pkg/n.py"] in
  r = (Ok (output_of r), snd r).
Proof. vm_compute. reflexivity. Defined.

Lemma C7_witness :
  let r := Scenario.run false id ["pkg/m.py"; "pkg/n.py"] in
  r = (Ok (output_of r), snd r) /\ NoDup (Def.Path <$> Defs (output_of r)).
Proof.
  intros r. split; [exact run_m_n|].
  exact (proj1 (C7_unique_paths_first_kept Scenario.cwd false Scenario.Script_source
                  Scenario.names Scenario.str_of_name id Scenario.json_dumps
                  Scenario.str_of_Def "." ["pkg/m.py"; "pkg/n.py"] false []
                  (snd r) (output_of r) run_m_n)).
Defined.

Lemma C6_witness :
  let r := Scenario.run false id ["pkg/m.py"; "pkg/n.py"] in
  r = (Ok (output_of r), snd r)
  /\ forall R, R ∈ Refs (output_of r) -> Ref.Def R = true ->
       length (filter (matches R) (Defs (output_of r))) = 1%nat.
Proof.
  intros r. split; [exact run_m_n|].
  exact (proj2 (C6_self_references Scenario.cwd false Scenario.Script_source
                  Scenario.names Scenario.str_of_name id Scenario.json_dumps
                  Scenario.str_of_Def "." ["pkg/m.py"; "pkg/n.py"] false []
                  (snd r) (output_of r) run_m_n)).
Defined.

Lemma C8_witness :
  let r := Scenario.run false id ["pkg/m.py"; "pkg/n.py"] in
  r = (Ok (output_of r), snd r)
  /\ exists dss,
       sublist (Defs (output_of r))
         (rev (map (fun f => module_def (filename_to_module_name f) f)
                 ["pkg/m.py"; "pkg/n.py"]) ++ concat dss).
Proof.
  intros r. split; [exact run_m_n|].
  destruct (C8_iteration_order Scenario.cwd false Scenario.Script_source
              Scenario.names Scenario.str_of_name id Scenario.json_dumps
              Scenario.str_of_Def "." ["pkg/m.py"; "pkg/n.py"] false []
              (snd r) (output_of r) run_m_n) as (dss & _ & Heq & _ & _ & Hsub).
  exists dss. rewrite <- Heq. exact Hsub.
Defined.

(** With the files [a.py] and [a/__init__.py], in this order, both
    synthesized definitions have the Path [a]. The run keeps the one of
    [a/__init__.py], the second file; iterating over the synthesized
    definitions in the order of the input files would keep the one of
    [a.py]. *)
Lemma C8_counterexample :
  let files := ["a.py"; "a/__init__.py"] in
  let r := Scenario.run false id files in
  r = (Ok (output_of r), snd r)
  /\ Defs (output_of r) = [module_def "a" "a/__init__.py"]
  /\ keep_first Def.Path ∅
       (map (fun f => module_def (filename_to_module_name f) f) files
        ++ concat (map (fun _ => []) files))
     = [module_def "a" "a.py"]
  /\ Defs (output_of r)
     <> keep_first Def.Path ∅
          (map (fun f => module_def (filename_to_module_name f) f) files
           ++ concat (map (fun _ => []) files)).
Proof. repeat split; vm_compute; (reflexivity || discriminate). Qed.

Lemma C2_witness :
  let r := Scenario.run false id ["pkg/m.py"; "pkg/n.py"] in
  r = (Ok (output_of r), snd r)
  /\ forall D, D ∈ Defs (output_of r) -> Def.DefStart D <= Def.DefEnd D.
Proof.
  intros r. split; [exact run_m_n|]. intros D HD.
  exact (proj1 (C2_spans Scenario.cwd false Scenario.Script_source
                  Scenario.names Scenario.str_of_name id Scenario.json_dumps
                  Scenario.str_of_Def "." ["pkg/m.py"; "pkg/n.py"] false []
                  (snd r) (output_of r) run_m_n D HD)).
Defined.

(** The document of the run over [pkg/n.py] starts with the synthesized
    definition of the module, whose DefStart and DefEnd are both 0. *)
Lemma C2_counterexample :
  let r := Scenario.run false id ["pkg/n.py"] in
  r = (Ok (output_of r), snd r)
  /\ ~ (forall D, D ∈ Defs (output_of r) -> Def.DefStart D < Def.DefEnd D).
Proof.
  intros r. split; [vm_compute; reflexivity|]. intros Hall.
  assert (Hin : module_def "pkg.n" "pkg/n.py" ∈ Defs (output_of r))
    by (vm_compute; apply list_elem_of_here).
  apply Hall in Hin. vm_compute in Hin. discriminate.
Qed.

Lemma C10_witness :
  let r := Scenario.run false id ["pkg/m.py"; "pkg/n.py"] in
  path.isabs Scenario.cwd = true
  /\ r = (Ok (output_of r), snd r)
  /\ Refs (output_of r)
     = map (self_ref Scenario.cwd) (Defs (output_of r))
       ++ keep_first ref_key ∅
            (all_refs Scenario.cwd Scenario.Script_source Scenario.names
               ["pkg/m.py"; "pkg/n.py"]).
Proof.
  intros r. split; [reflexivity|]. split; [exact run_m_n|].
  destruct (C10_self_and_extracted Scenario.cwd false Scenario.Script_source
              Scenario.names Scenario.str_of_name id Scenario.json_dumps
              Scenario.str_of_Def "." ["pkg/m.py"; "pkg/n.py"] false []
              (snd r) (output_of r) eq_refl run_m_n) as (_ & _ & _ & Hrefs & _).
  exact Hrefs.
Defined.

(** In that run the use of [C] that the engine reports at the place where
    [C] is defined stands in the document next to the self-reference of
    [C]. *)
Lemma run_m_n_coinciding :
  let out := output_of (Scenario.run false id ["pkg/m.py"; "pkg/n.py"]) in
  Ref.mk "pkg/m/C" "/home/u/proj/pkg/m.py" true "pkg/m.py" 6 7 false ∈ Refs out
  /\ Ref.mk "pkg/m/C" "pkg/m.py" false "pkg/m.py" 6 7 false ∈ Refs out.
Proof. split; vm_compute; repeat constructor. Qed.

(** ** Sorting the items of a mapping *)

Lemma string_compare_trans (a b c : string) :
  String.compare a b <> Gt -> String.compare b c <> Gt -> String.compare a c <> Gt.
Proof.
  revert b c. induction a as [|x a IH]; intros [|y b] [|z c]; simpl; try done.
  unfold Ascii.compare.
  destruct (N.compare_spec (N_of_ascii x) (N_of_ascii y)),
           (N.compare_spec (N_of_ascii y) (N_of_ascii z)),
           (N.compare_spec (N_of_ascii x) (N_of_ascii z));
    try done; try lia.
  apply IH.
Qed.

Lemma leb_compare (a b : string) : String.leb a b = true <-> String.compare a b <> Gt.
Proof. unfold String.leb. by destruct (String.compare a b). Qed.

Lemma leb_trans (a b c : string) :
  String.leb a b = true -> String.leb b c = true -> String.leb a c = true.
Proof. rewrite !leb_compare. apply string_compare_trans. Qed.

Section Sorted.
Context {A : Type}.
Implicit Types (x y : string * A) (l : list (string * A)).

Lemma insert_by_key_perm x l : Permutation (insert_by_key x l) (x :: l).
Proof.
  induction l as [|y l IH]; simpl; [done|].
  destruct (String.leb (fst x) (fst y)); [done|].
  rewrite IH. apply perm_swap.
Qed.

Lemma sorted_by_key_perm l : Permutation (sorted_by_key l) l.
Proof.
  induction l as [|x l IH]; simpl; [done|].
  rewrite insert_by_key_perm. by constructor.
Qed.

Lemma insert_by_key_sorted x l :
  StronglySorted key_le l -> StronglySorted key_le (insert_by_key x l).
Proof.
  induction l as [|y l IH]; intros Hl; simpl.
  - repeat constructor.
  - apply StronglySorted_inv in Hl as [Hl Hy].
    destruct (String.leb (fst x) (fst y)) eqn:Hxy.
    + constructor; [by constructor|].
      constructor; [done|].
      eapply Forall_impl; [exact Hy|].
      intros z Hz. unfold key_le in *. by eapply leb_trans.
    + constructor; [by apply IH|].
      apply Forall_forall. intros z Hz. apply list_elem_of_In in Hz.
      apply (Permutation_in _ (insert_by_key_perm x l)) in Hz.
      destruct Hz as [<-|Hz].
      * unfold key_le. destruct (String.leb_total (fst x) (fst y)); congruence.
      * rewrite Forall_forall in Hy. by apply Hy, list_elem_of_In.
Qed.

Lemma sorted_by_key_sorted l : StronglySorted key_le (sorted_by_key l).
Proof.
  induction l as [|x l IH]; simpl; [constructor|].
  by apply insert_by_key_sorted.
Qed.

(** Two sorted lists with the same items and no repeated key are equal. *)
Lemma sorted_unique l1 l2 :
  StronglySorted key_le l1 -> StronglySorted key_le l2 ->
  Permutation l1 l2 -> NoDup (fst <$> l1) -> l1 = l2.
Proof.
  revert l2. induction l1 as [|x l1 IH]; intros l2 Hs1 Hs2 Hp Hnd.
  - by apply Permutation_nil in Hp.
  - destruct l2 as [|y l2].
    { by apply Permutation_sym, Permutation_nil in Hp. }
    apply StronglySorted_inv in Hs1 as [Hs1 Hx].
    apply StronglySorted_inv in Hs2 as [Hs2 Hy].
    rewrite fmap_cons in Hnd. apply NoDup_cons in Hnd as [Hxk Hnd].
    rewrite Forall_forall in Hx, Hy.
    assert (Hxy : x = y).
    { assert (Hxin : In x (y :: l2)) by (apply (Permutation_in _ Hp); by left).
      assert (Hyin : In y (x :: l1))
        by (apply (Permutation_in _ (Permutation_sym Hp)); by left).
      destruct Hxin as [->|Hxin]; [done|].
      destruct Hyin as [->|Hyin]; [done|].
      exfalso. apply Hxk.
      rewrite (String.leb_antisym (fst x) (fst y)).
      - apply list_elem_of_fmap_2. by apply list_elem_of_In.
      - by apply Hx, list_elem_of_In.
      - by apply Hy, list_elem_of_In. }
    subst y. f_equal. apply IH; try done.
    by apply Permutation_cons_inv in Hp.
Qed.

Lemma sorted_by_key_order_free l l' :
  Permutation l' l -> NoDup (fst <$> l) -> sorted_by_key l' = sorted_by_key l.
Proof.
  intros Hp Hnd. apply sorted_unique.
  - apply sorted_by_key_sorted.
  - apply sorted_by_key_sorted.
  - by rewrite !sorted_by_key_perm.
  - rewrite sorted_by_key_perm. by rewrite Hp.
Qed.

End Sorted.

Lemma order_dict_order_free
  (d1 d2 : list (string * json) -> list (string * json)) (dct : list (string * json)) :
  (forall l, Permutation (d1 l) l) -> (forall l, Permutation (d2 l) l) ->
  NoDup (fst <$> dct) -> order_dict d1 dct = order_dict d2 dct.
Proof.
  intros H1 H2 Hnd. unfold order_dict. f_equal.
  rewrite (sorted_by_key_order_free dct (d1 dct)) by done.
  by rewrite (sorted_by_key_order_free dct (d2 dct)).
Qed.

Lemma Def_fields_keys (d : Def.t) : NoDup (fst <$> Def_fields d).
Proof. simpl. apply (bool_decide_unpack _). vm_compute. exact I. Qed.

Lemma Ref_fields_keys (r : Ref.t) : NoDup (fst <$> Ref_fields r).
Proof. simpl. apply (bool_decide_unpack _). vm_compute. exact I. Qed.

(** C9. Two runs of [graph] over the same files, with the same working
    directory and the same answers of the engine, write the same text to
    standard output and to the diagnostic stream and compute the same
    lists, whatever the order in which the mappings of either run hand out
    their items. *)
Theorem C9_two_runs_agree (cwd : string) (_quiet : bool)
  (Script_source : string -> string) (names : string -> list jedi.Name)
  (str_of_name : jedi.Name -> string)
  (dict_items1 dict_items2 : list (string * json) -> list (string * json))
  (json_dumps : json -> option Z -> string) (str_of_Def : Def.t -> string)
  (dir_ : string) (source_files : list string) (pretty : bool)
  (stderr : list string) :
  (forall l, Permutation (dict_items1 l) l) ->
  (forall l, Permutation (dict_items2 l) l) ->
  graph cwd _quiet Script_source names str_of_name dict_items1 json_dumps
    str_of_Def dir_ source_files pretty stderr
  = graph cwd _quiet Script_source names str_of_name dict_items2 json_dumps
      str_of_Def dir_ source_files pretty stderr.
Proof.
  intros H1 H2. unfold graph.
  destruct (collect cwd _quiet Script_source names str_of_name source_files [] [] stderr)
    as [[[defs refs]|e] s]; [|done].
  destruct (assemble cwd source_files defs refs) as [unique_defs unique_refs].
  destruct unique_defs as [|first rest]; [done|].
  set (ud := first :: rest).
  assert (HD : map (fun d => order_dict dict_items1 (Def_fields d)) ud
               = map (fun d => order_dict dict_items2 (Def_fields d)) ud).
  { apply map_ext. intros d. apply order_dict_order_free; try done.
    apply Def_fields_keys. }
  assert (HR : map (fun r => order_dict dict_items1 (Ref_fields r)) unique_refs
               = map (fun r => order_dict dict_items2 (Ref_fields r)) unique_refs).
  { apply map_ext. intros r. apply order_dict_order_free; try done.
    apply Ref_fields_keys. }
  rewrite HD, HR.
  rewrite (order_dict_order_free dict_items1 dict_items2); try done.
  simpl. apply (bool_decide_unpack _). vm_compute. exact I.
Qed.

(** The run over [pkg/m.py] and [pkg/n.py], once with mappings that hand
    out their items in the order of insertion and once in the reverse
    order. *)
Lemma C9_witness :
  Scenario.run false id ["pkg/m.py"; "pkg/n.py"]
  = Scenario.run false (@rev (string * json)) ["pkg/m.py"; "pkg/n.py"].
Proof.
  apply (C9_two_runs_agree Scenario.cwd false Scenario.Script_source Scenario.names
           Scenario.str_of_name id (@rev (string * json)) Scenario.json_dumps
           Scenario.str_of_Def "." ["pkg/m.py"; "pkg/n.py"] false []).
  - intros l. apply Permutation_refl.
  - intros l. apply Permutation_sym, Permutation_rev.
Defined.

(** * Further properties *)

(** ** The position converter and the text *)

Lemma lines_before_nonneg (ls : list string) (i : nat) : 0 <= lines_before ls i.
Proof.
  revert i. induction ls as [|l ls IH]; intros [|i]; try done.
  change (lines_before (l :: ls) (S i)) with (Str.len l + 1 + lines_before ls i).
  specialize (IH i). unfold Str.len. lia.
Qed.

Lemma lines_before_step (ls : list string) (i : nat) (l : string) :
  ls !! i = Some l ->
  lines_before ls (S i) = lines_before ls i + Str.len l + 1.
Proof.
  revert i. induction ls as [|l0 ls IH]; intros [|i] Hl; simpl in Hl; try done.
  - injection Hl as ->. unfold lines_before. simpl. lia.
  - rewrite !lines_before_S, (IH i Hl). lia.
Qed.

Lemma lines_before_mono (ls : list string) (i j : nat) :
  (i < j <= length ls)%nat -> lines_before ls i < lines_before ls j.
Proof.
  intros [Hij Hj]. induction j as [|j IH]; [lia|].
  destruct (lookup_lt_is_Some_2 ls j) as [l Hl]; [lia|].
  rewrite (lines_before_step _ _ _ Hl).
  assert (0 <= Str.len l) by (unfold Str.len; lia).
  destruct (decide (i = j)) as [->|Hne]; [lia|].
  assert (lines_before ls i < lines_before ls j) by (apply IH; lia). lia.
Qed.

(** The character of the text at the offset of a line plus a column is the
    character of that line at the column. *)
Lemma get_join (ls : list string) (i col : nat) (l : string) :
  ls !! i = Some l -> (col < String.length l)%nat ->
  String.get (Z.to_nat (lines_before ls i) + col) (Str.join nl ls) = String.get col l.
Proof.
  revert i. induction ls as [|l0 ls IH]; intros i Hl Hcol; [done|].
  destruct i as [|i].
  - simpl in Hl. injection Hl as ->.
    change (Z.to_nat (lines_before (l :: ls) 0)) with 0%nat. simpl (0 + col)%nat.
    destruct ls as [|l' ls]; [done|].
    rewrite join_cons_cons. symmetry. by apply String.append_correct1.
  - simpl in Hl. destruct ls as [|l' ls]; [done|].
    rewrite join_cons_cons, lines_before_S.
    pose proof (lines_before_nonneg (l' :: ls) i) as Hnn.
    replace (Z.to_nat (Str.len l0 + 1 + lines_before (l' :: ls) i) + col)%nat
      with ((Z.to_nat (lines_before (l' :: ls) i) + col + String.length nl)
            + String.length l0)%nat
      by (unfold Str.len; simpl; lia).
    rewrite <- String.append_correct2, <- String.append_correct2.
    by apply IH.
Qed.

(** X1. A line and a column inside the text are converted to the offset of
    that very character: the character of the source at the offset is the
    character at the column of the line. *)
Theorem convert_points_at_character (source : string) (i col : nat) (l : string) :
  Str.split "010"%char source !! i = Some l ->
  (col < String.length l)%nat ->
  exists off,
    LineColToOffConverter.convert (LineColToOffConverter.init source)
      (Z.of_nat i + 1) (Z.of_nat col) = Ok (LineColToOffConverter.Int off)
    /\ 0 <= off < Str.len source
    /\ String.get (Z.to_nat off) source = String.get col l.
Proof.
  intros Hl Hcol. set (ls := Str.split "010"%char source) in *.
  pose proof (lookup_lt_Some _ _ _ Hl) as Hi.
  pose proof (lines_before_nonneg ls i) as Hnn.
  exists (lines_before ls i + Z.of_nat col). split; [|split].
  - unfold LineColToOffConverter.convert.
    rewrite ConverterFacts.length_init. fold ls.
    destruct (Z.leb_spec (Z.of_nat (S (length ls))) (Z.of_nat i + 1 - 1)); [lia|].
    replace (Z.of_nat i + 1 - 1) with (Z.of_nat i) by lia.
    rewrite (ConverterFacts.getitem_nonneg _ i (lines_before ls i)); [done|].
    rewrite ConverterFacts.init_eq. fold ls.
    rewrite ConverterFacts.lookup_offsets by lia. f_equal; lia.
  - assert (lines_before ls (S i) <= lines_before ls (length ls)).
    { destruct (decide (S i = length ls)) as [->|]; [lia|].
      apply Z.lt_le_incl, lines_before_mono. lia. }
    assert (Hsrc : Str.join nl ls = source) by apply join_split.
    pose proof (lines_before_all ls (split_not_nil _ _)) as Hall.
    rewrite Hsrc in Hall. rewrite (lines_before_step _ _ _ Hl) in *.
    unfold Str.len in *. lia.
  - replace (Z.to_nat (lines_before ls i + Z.of_nat col))
      with (Z.to_nat (lines_before ls i) + col)%nat by lia.
    assert (Hsrc : Str.join nl ls = source) by apply join_split.
    rewrite <- Hsrc at 1. by apply get_join.
Qed.

(** The [f] of [def foo] in a text of two lines. *)
Lemma convert_points_at_character_witness :
  exists off,
    LineColToOffConverter.convert
      (LineColToOffConverter.init ("import os" +:+ nl +:+ "def foo(): pass"))
      2 4 = Ok (LineColToOffConverter.Int off)
    /\ String.get (Z.to_nat off) ("import os" +:+ nl +:+ "def foo(): pass")
       = Some "f"%char.
Proof.
  destruct (convert_points_at_character ("import os" +:+ nl +:+ "def foo(): pass")
              1 4 "def foo(): pass") as (off & Hc & _ & Hg);
    [reflexivity|simpl; lia|].
  exists off. split; [exact Hc|exact Hg].
Defined.

(** X2. The table of the converter increases strictly, starts at 0 and
    ends with the length of the text plus one. *)
Theorem table_increasing (source : string) :
  let table := LineColToOffConverter.init source in
  table !! 0%nat = Some 0
  /\ List.last table 0 = Str.len source + 1
  /\ forall i j a b, (i < j)%nat -> table !! i = Some a -> table !! j = Some b -> a < b.
Proof.
  intros table. set (ls := Str.split "010"%char source).
  assert (Hlook : forall i, (i <= length ls)%nat -> table !! i = Some (lines_before ls i)).
  { intros i Hi. unfold table. rewrite ConverterFacts.init_eq.
    by rewrite ConverterFacts.lookup_offsets. }
  assert (Hlen : length table = S (length ls)) by apply ConverterFacts.length_init.
  split; [by rewrite Hlook by lia|]. split.
  - assert (Hlast : table !! length ls = Some (Str.len source + 1)).
    { assert (Hsrc : Str.join nl ls = source) by apply join_split.
      rewrite Hlook by lia. rewrite lines_before_all by apply split_not_nil.
      by rewrite Hsrc. }
    destruct (proj1 (list_elem_of_lookup table (Str.len source + 1))) as [_ _];
      [by eapply list_elem_of_lookup_2|].
    rewrite <- (take_drop (length ls) table).
    rewrite (drop_S _ _ _ Hlast), drop_ge by lia.
    by rewrite last_last.
  - intros i j a b Hij Ha Hb.
    pose proof (lookup_lt_Some _ _ _ Hb) as Hj.
    rewrite Hlook in Ha, Hb by lia. injection Ha as <-. injection Hb as <-.
    apply lines_before_mono. lia.
Qed.

(** X3. Outside the lines 1 .. len(table), [convert] does not clamp: above
    the table it returns the pair with the message and no offset; for
    lines from 1 - len(table) to 0 the index is negative and counts from the
    end of the table; further below, the indexing raises. *)
Theorem convert_out_of_range (table : list Z) (line column : Z) :
  let n := Z.of_nat (length table) in
  (n < line ->
   exists msg, LineColToOffConverter.convert table line column
               = Ok (LineColToOffConverter.NoneAnd msg))
  /\ (1 - n <= line <= 0 ->
      exists x, table !! Z.to_nat (n + line - 1) = Some x
        /\ LineColToOffConverter.convert table line column
           = Ok (LineColToOffConverter.Int (x + column)))
  /\ (line < 1 - n ->
      exists e, LineColToOffConverter.convert table line column = Raise (IndexError e)).
Proof.
  intros n. unfold LineColToOffConverter.convert. fold n. repeat split.
  - intros Hl. destruct (Z.leb_spec n (line - 1)); [eauto|lia].
  - intros Hl. destruct (Z.leb_spec n (line - 1)); [lia|].
    destruct (lookup_lt_is_Some_2 table (Z.to_nat (n + line - 1))) as [x Hx]; [lia|].
    exists x. split; [done|]. unfold py_getitem. fold n.
    destruct (Z.ltb_spec (line - 1) 0); [|lia].
    destruct (Z.ltb_spec (line - 1 + n) 0); [lia|].
    destruct (Z.leb_spec n (line - 1 + n)); [lia|]. simpl.
    replace (line - 1 + n) with (n + line - 1) by lia. by rewrite Hx.
  - intros Hl. destruct (Z.leb_spec n (line - 1)); [lia|].
    unfold py_getitem. fold n.
    destruct (Z.ltb_spec (line - 1) 0); [|lia].
    destruct (Z.ltb_spec (line - 1 + n) 0); [|lia]. simpl. eauto.
Qed.

(** Line 0 of a text of one line reads the last entry of the table. *)
Lemma convert_out_of_range_witness :
  LineColToOffConverter.convert (LineColToOffConverter.init "x = 1") 0 3
  = Ok (LineColToOffConverter.Int 9).
Proof.
  destruct (proj1 (proj2 (convert_out_of_range (LineColToOffConverter.init "x = 1") 0 3)))
    as (x & Hx & Hc); [simpl; lia|].
  injection Hx as <-. exact Hc.
Defined.

(** ** Cutting a path at its last separator *)

Lemma rcut_no_sep (c : ascii) (t : string) :
  has_char c t = false -> Str.rcut c t = ("", t).
Proof.
  induction t as [|d t IH]; simpl; [done|].
  intros [Hd Ht]%orb_false_elim. by rewrite IH, Hd.
Qed.

Lemma rcut_app_sep (c : ascii) (d t : string) :
  has_char c t = false ->
  Str.rcut c (d +:+ String c t) = (d +:+ String c "", t).
Proof.
  intros Ht. induction d as [|x d IH].
  - simpl. by rewrite (rcut_no_sep c t Ht), Ascii.eqb_refl.
  - change (String x d +:+ String c t) with (String x (d +:+ String c t)).
    cbn [Str.rcut]. rewrite IH. by destruct d.
Qed.

Lemma rcut_app_suffix (c : ascii) (s t : string) :
  has_char c t = false ->
  Str.rcut c (s +:+ t) = (fst (Str.rcut c s), snd (Str.rcut c s) +:+ t).
Proof.
  intros Ht. induction s as [|x s IH].
  - simpl. by rewrite rcut_no_sep.
  - change (String x s +:+ t) with (String x (s +:+ t)).
    cbn [Str.rcut]. rewrite IH.
    destruct (Str.rcut c s) as [[|h0 h] t']; simpl; [|done].
    by destruct (Ascii.eqb x c).
Qed.

Lemma rcut_append (c : ascii) (s : string) :
  fst (Str.rcut c s) +:+ snd (Str.rcut c s) = s.
Proof.
  induction s as [|x s IH]; simpl; [done|].
  destruct (Str.rcut c s) as [[|h0 h] t']; simpl in IH; subst s.
  - by destruct (Ascii.eqb x c).
  - done.
Qed.

Lemma rcut_at_app (c : ascii) (s t : string) :
  has_char c t = false ->
  Str.rcut_at c (s +:+ String c t) = Some (s, String c t).
Proof.
  intros Ht.
  assert (Hnone : Str.rcut_at c t = None).
  { clear s. induction t as [|d t IH]; simpl; [done|].
    simpl in Ht. apply orb_false_elim in Ht as [Hd Ht]. by rewrite IH, Hd. }
  induction s as [|x s IH].
  - simpl. by rewrite Hnone, Ascii.eqb_refl.
  - change (String x s +:+ String c t) with (String x (s +:+ String c t)).
    cbn [Str.rcut_at]. by rewrite IH.
Qed.

Lemma rstrip_app_sep (c : ascii) (d : string) :
  Str.rstrip c (d +:+ String c "") = Str.rstrip c d.
Proof.
  induction d as [|x d IH]; simpl.
  - by rewrite Ascii.eqb_refl.
  - by rewrite IH.
Qed.

Lemma rstrip_id (c : ascii) (d : string) :
  Str.endswith_char d c = false -> Str.rstrip c d = d.
Proof.
  induction d as [|x d IH]; [done|].
  destruct d as [|y d].
  - simpl. by intros ->.
  - intros Hd. change (Str.endswith_char (String y d) c = false) in Hd.
    cbn [Str.rstrip]. cbn [Str.rstrip] in IH. rewrite (IH Hd). done.
Qed.

Lemma all_char_app_sep (c : ascii) (d : string) :
  Str.all_char c (d +:+ String c "") = Str.all_char c d.
Proof.
  induction d as [|x d IH]; simpl.
  - by rewrite Ascii.eqb_refl.
  - by rewrite IH.
Qed.

Lemma all_char_endswith (c : ascii) (d : string) :
  d <> "" -> Str.endswith_char d c = false -> Str.all_char c d = false.
Proof.
  induction d as [|x d IH]; [done|]. intros _.
  destruct d as [|y d].
  - simpl. intros ->. done.
  - intros Hd. change (Str.endswith_char (String y d) c = false) in Hd.
    cbn [Str.all_char]. cbn [Str.all_char] in IH. rewrite (IH ltac:(done) Hd).
    apply andb_false_r.
Qed.

(** [basename] and [dirname] of a directory joined with a name. *)
Lemma basename_dir_file (d f : string) :
  has_char path.sep f = false -> path.basename (d +:+ "/" +:+ f) = f.
Proof.
  intros Hf. unfold path.basename.
  change (d +:+ "/" +:+ f) with (d +:+ String path.sep f).
  by rewrite rcut_app_sep.
Qed.

Lemma dirname_dir_file (d f : string) :
  d <> "" -> Str.endswith_char d path.sep = false ->
  has_char path.sep f = false -> path.dirname (d +:+ "/" +:+ f) = d.
Proof.
  intros Hd Hend Hf. unfold path.dirname.
  change (d +:+ "/" +:+ f) with (d +:+ String path.sep f).
  rewrite rcut_app_sep by done. cbn [fst].
  rewrite all_char_app_sep, rstrip_app_sep, all_char_endswith by done.
  rewrite rstrip_id by done. by destruct d.
Qed.

(** X4. For a file [f] in a directory [d], the supermodule path is [d];
    only when the file is the package initializer it is the parent of [d].
    For a file without directory it is empty. *)
Theorem supermodule_path_of_file (d f : string) :
  has_char path.sep f = false ->
  supermodule_path f = ""
  /\ (d <> "" -> Str.endswith_char d path.sep = false ->
      supermodule_path (d +:+ "/" +:+ f)
      = if String.eqb f "__init__.py" then path.dirname d else d).
Proof.
  intros Hf. unfold supermodule_path. split.
  - unfold path.basename, path.dirname. rewrite rcut_no_sep by done. simpl.
    by destruct (String.eqb f "__init__.py").
  - intros Hd Hend. rewrite basename_dir_file, dirname_dir_file by done. done.
Qed.

(** The package [pkg/sub] and a module of it. *)
Lemma supermodule_path_of_file_witness :
  supermodule_path "pkg/sub/__init__.py" = "pkg"
  /\ supermodule_path "pkg/sub/m.py" = "pkg/sub".
Proof.
  split.
  - exact (proj2 (supermodule_path_of_file "pkg/sub" "__init__.py" eq_refl)
             ltac:(discriminate) eq_refl).
  - exact (proj2 (supermodule_path_of_file "pkg/sub" "m.py" eq_refl)
             ltac:(discriminate) eq_refl).
Defined.

(** X5. A module file [d.py] and the initializer of a package [d] have the
    same module name, the path [d] with dots for the separators. *)
Theorem module_name_of_file_and_package (d : string) :
  d <> "" -> Str.endswith_char d path.sep = false ->
  Str.all_char "."%char (path.basename d) = false ->
  path.basename d <> "__init__" ->
  filename_to_module_name (d +:+ ".py") = Str.replace "/" "." d
  /\ filename_to_module_name (d +:+ "/__init__.py") = Str.replace "/" "." d.
Proof.
  intros Hd Hend Hdots Hinit. unfold filename_to_module_name. split.
  - assert (Hcut : Str.rcut path.sep (d +:+ ".py")
                   = (fst (Str.rcut path.sep d), path.basename d +:+ ".py"))
      by (by rewrite rcut_app_suffix).
    unfold path.basename at 1. rewrite Hcut. cbn [snd].
    rewrite (proj2 (String.eqb_neq _ _)).
    + unfold path.splitext. rewrite Hcut.
      change (path.basename d +:+ ".py") with (path.basename d +:+ String "."%char "py").
      rewrite rcut_at_app by done. rewrite Hdots. cbn [fst].
      unfold path.basename. by rewrite rcut_append.
    + intros Heq. apply Hinit.
      assert (Hlen : forall a b : string, a +:+ ".py" = b +:+ ".py" -> a = b).
      { induction a as [|x a IH]; intros [|y b] Hab; simpl in Hab; try done.
        - injection Hab as <- Hab. by destruct b as [|? [|? [|? ?]]].
        - injection Hab as -> Hab. by destruct a as [|? [|? [|? ?]]].
        - injection Hab as -> Hab. f_equal. by apply IH. }
      by apply Hlen.
  - change (d +:+ "/__init__.py") with (d +:+ "/" +:+ "__init__.py").
    rewrite (basename_dir_file d "__init__.py") by done.
    rewrite (dirname_dir_file d "__init__.py") by done. done.
Qed.

Lemma module_name_of_file_and_package_witness :
  filename_to_module_name "pkg/util.py" = "pkg.util"
  /\ filename_to_module_name "pkg/util/__init__.py" = "pkg.util".
Proof.
  exact (module_name_of_file_and_package "pkg/util" ltac:(discriminate) eq_refl eq_refl
           ltac:(discriminate)).
Defined.

(** ** Paths of the resolver *)

Lemma replace_no_char (a b : ascii) (s : string) :
  a <> b -> has_char a (Str.replace a b s) = false.
Proof.
  intros Hab. induction s as [|c s IH]; simpl; [done|]. rewrite IH, orb_false_r.
  destruct (Ascii.eqb_spec c a) as [->|Hc].
  - apply Ascii.eqb_neq. congruence.
  - by apply Ascii.eqb_neq.
Qed.

Lemma join2_not_abs (a b : string) :
  Str.startswith a "/" = false -> Str.startswith b "/" = false ->
  Str.startswith (path.join2 a b) "/" = false.
Proof.
  intros Ha Hb. unfold path.join2. rewrite Hb.
  destruct a as [|c a]; [done|].
  destruct (Str.is_empty (String c a) || Str.endswith_char (String c a) path.sep);
    by rewrite startswith_slash_app.
Qed.

Lemma fold_join2_not_abs (l : list string) (a : string) :
  Str.startswith a "/" = false ->
  Forall (fun w => Str.startswith w "/" = false) l ->
  Str.startswith (fold_left path.join2 l a) "/" = false.
Proof.
  revert a. induction l as [|b l IH]; intros a Ha Hl; simpl; [done|].
  inversion Hl; subst. apply IH; [by apply join2_not_abs|done].
Qed.

Lemma join_comps_not_abs (p r : string) (i : nat) :
  path.join (drop i (Str.split path.sep p)) = Ok r -> path.isabs r = false.
Proof.
  pose proof (Forall_drop _ i _ (split_no_leading_sep p)) as Hall.
  destruct (drop i (Str.split path.sep p)) as [|a l]; [done|].
  simpl. intros [= <-]. inversion Hall; subst. by apply fold_join2_not_abs.
Qed.

(** X6. Whatever [abs_module_path_to_relative_module_path] returns is a
    relative path: the path from the working directory, or what follows a
    marker component. *)
Theorem relative_module_path_is_relative (cwd module_path r : string) :
  abs_module_path_to_relative_module_path cwd module_path = Ok r ->
  path.isabs r = false.
Proof.
  unfold abs_module_path_to_relative_module_path.
  destruct (path.relpath cwd module_path) as [rp|] eqn:Hrp; [simpl|done].
  destruct (Str.startswith rp "..").
  - simpl.
    destruct (first_index _ _) as [i|].
    + apply join_comps_not_abs.
    + destruct (first_index _ _) as [i|]; [apply join_comps_not_abs|done].
  - simpl. intros [= <-]. by eapply relpath_not_abs.
Qed.

Lemma relative_module_path_is_relative_witness :
  path.isabs "foo/bar.py" = false.
Proof.
  apply (relative_module_path_is_relative "/home/u/proj"
           "/usr/lib/python2.7/site-packages/foo/bar.py").
  vm_compute. reflexivity.
Defined.

(** X7. A use and a definition that the engine describes alike, the use
    with a module path that leads from the working directory to the module
    path of the definition without leaving it, get the same canonical path:
    the DefPath of the reference is the Path of the definition. *)
Theorem reference_meets_definition (cwd : string) (use def_ : jedi.Name)
  (f f' : string) (lc lc' : list Z) (R : Ref.t) (D : Def.t) :
  jedi.type use = jedi.type def_ ->
  jedi.name use = jedi.name def_ ->
  jedi.full_name use = jedi.full_name def_ ->
  jedi.parent use = jedi.parent def_ ->
  jedi.in_builtin_module use = jedi.in_builtin_module def_ ->
  path.relpath cwd (jedi.module_path use) = Ok (jedi.module_path def_) ->
  Str.startswith (jedi.module_path def_) ".." = false ->
  name_to_ref cwd use f lc = Ok R ->
  fst (jedi_def_to_def cwd def_ f' lc' []) = Ok D ->
  full_name_of_def cwd use true = full_name_of_def cwd def_ false
  /\ Ref.DefPath R = Def.Path D.
Proof.
  intros Ht Hn Hfn Hp Hb Hrel Hin HR HD.
  assert (Heq : full_name_of_def cwd use true = full_name_of_def cwd def_ false).
  { unfold full_name_of_def, abs_module_path_to_relative_module_path, jedi.call_parent.
    rewrite Ht, Hn, Hfn, Hp, Hb, Hrel. cbn [bind]. rewrite Hin. done. }
  split; [done|].
  apply jedi_def_to_def_Ok in HD as (_ & _ & _ & _ & (fn & Hfn' & ->)).
  unfold name_to_ref in HR. rewrite Heq, Hfn' in HR. cbn [bind] in HR.
  destruct (String.eqb fn ""); [done|].
  destruct (LineColToOffConverter.convert lc (jedi.line use) (jedi.column use))
    as [[z|msg]|]; simpl in HR; try done.
  - destruct (path.relpath cwd (jedi.module_path use)); simpl in HR; [|done].
    by injection HR as <-.
  - by destruct (path.relpath cwd (jedi.module_path use)).
Qed.

(** The class [C] of [pkg/m.py] and its use in the last line. *)
Lemma reference_meets_definition_witness :
  Ref.DefPath (Ref.mk "pkg/m/C" "pkg/m.py" false "pkg/m.py" 56 57 false)
  = Def.Path (Def.mk "pkg/m/C" "class" "C" "pkg/m.py" 6 7 true "" None).
Proof.
  refine (proj2 (reference_meets_definition Scenario.cwd Scenario.ref_C Scenario.class_C
                   "pkg/m.py" "pkg/m.py" (LineColToOffConverter.init Scenario.source)
                   (LineColToOffConverter.init Scenario.source) _ _
                   eq_refl eq_refl eq_refl eq_refl eq_refl _ eq_refl _ _));
    vm_compute; reflexivity.
Defined.

(** ** The document of a run *)

Lemma keep_first_app {A K : Type} `{Countable K} (key : A -> K) (seen : gset K)
  (l1 l2 : list A) :
  keep_first key seen (l1 ++ l2)
  = keep_first key seen l1
    ++ keep_first key (seen ∪ list_to_set (key <$> l1)) l2.
Proof.
  revert seen. induction l1 as [|x l1 IH]; intros seen; simpl.
  - f_equal. set_solver.
  - case_bool_decide.
    + rewrite IH. f_equal. f_equal. set_solver.
    + rewrite IH. simpl. f_equal. f_equal. f_equal. set_solver.
Qed.

Lemma name_to_ref_DefPath (cwd : string) (n : jedi.Name) (f : string) (lc : list Z)
  (r : Ref.t) :
  name_to_ref cwd n f lc = Ok r ->
  exists fn, full_name_of_def cwd n true = Ok fn /\ fn <> ""
    /\ Ref.DefPath r = Str.replace "." "/" fn
    /\ LineColToOffConverter.convert lc (jedi.line n) (jedi.column n)
       = Ok (LineColToOffConverter.Int (Ref.Start r)).
Proof.
  unfold name_to_ref.
  destruct (full_name_of_def cwd n true) as [fn|]; [simpl|done].
  destruct (String.eqb_spec fn ""); [done|].
  destruct (LineColToOffConverter.convert lc (jedi.line n) (jedi.column n))
    as [[z|msg]|]; simpl; try done.
  - destruct (path.relpath cwd (jedi.module_path n)); simpl; [|done].
    intros [= <-]. exists fn. done.
  - by destruct (path.relpath cwd (jedi.module_path n)).
Qed.

Lemma relpath_nonempty (cwd p r : string) : path.relpath cwd p = Ok r -> p <> "".
Proof. unfold path.relpath. by destruct p. Qed.

Section Document.
Variable cwd : string.
Variable Script_source : string -> string.
Variable names : string -> list jedi.Name.

Local Abbreviation all_defs_ := (all_defs cwd Script_source names).
Local Abbreviation all_refs_ := (all_refs cwd Script_source names).

Lemma names_to_defs_Ok_iff (f : string) (lc : list Z) (todo : list jedi.Name) :
  (exists ds, names_to_defs cwd f lc todo = Ok ds) <->
  forall n, n ∈ todo -> jedi.is_definition n = true ->
    exists D, fst (jedi_def_to_def cwd n f lc []) = Ok D.
Proof.
  induction todo as [|m todo IH]; simpl.
  - split; [by intros _ n ?%elem_of_nil|eauto].
  - destruct (jedi.is_definition m) eqn:Hm.
    + split.
      * intros [ds Hds] n [->|Hn]%elem_of_cons Hdef.
        -- destruct (jedi_def_to_def cwd m f lc []).1; [eauto|done].
        -- destruct (jedi_def_to_def cwd m f lc []).1; [simpl in Hds|done].
           destruct (names_to_defs cwd f lc todo) as [ds'|] eqn:Hrest; [|done].
           apply (proj1 IH); eauto.
      * intros Hall. destruct (Hall m) as [D ->]; [by left|done|]. simpl.
        destruct (proj2 IH) as [ds' ->]; [|simpl; eauto].
        intros n Hn. apply Hall. by right.
    + rewrite IH. split.
      * intros Hall n [->|Hn]%elem_of_cons Hdef; [congruence|by apply Hall].
      * intros Hall n Hn. apply Hall. by right.
Qed.

Lemma all_defs_Ok_iff (files : list string) :
  (exists ds, all_defs_ files = Ok ds) <->
  forall f n, f ∈ files -> n ∈ names f -> jedi.is_definition n = true ->
    exists D, fst (jedi_def_to_def cwd n f (LineColToOffConverter.init (Script_source f)) []) = Ok D.
Proof.
  induction files as [|f files IH]; simpl.
  - split; [by intros _ f n ?%elem_of_nil|eauto].
  - split.
    + intros [ds Hds] f' n [->|Hf]%elem_of_cons Hn Hdef.
      * destruct (file_defs cwd Script_source names f) as [d|] eqn:Hd; [|done].
        apply (proj1 (names_to_defs_Ok_iff f
                        (LineColToOffConverter.init (Script_source f)) (names f)));
          eauto.
      * destruct (file_defs cwd Script_source names f) as [d|]; [simpl in Hds|done].
        destruct (all_defs_ files) as [ds'|]; [|done].
        apply (proj1 IH); eauto.
    + intros Hall.
      destruct (proj2 (names_to_defs_Ok_iff f
                  (LineColToOffConverter.init (Script_source f)) (names f)))
        as [d Hd].
      { intros n Hn. apply Hall; [by left|done]. }
      unfold file_defs. rewrite Hd. simpl.
      destruct (proj2 IH) as [ds' ->]; [|simpl; eauto].
      intros f' n Hf'. apply Hall. by right.
Qed.

Lemma names_to_defs_elem_2 (f : string) (lc : list Z) (todo : list jedi.Name)
  (ds : list Def.t) (n : jedi.Name) :
  names_to_defs cwd f lc todo = Ok ds -> n ∈ todo -> jedi.is_definition n = true ->
  exists D, fst (jedi_def_to_def cwd n f lc []) = Ok D /\ D ∈ ds.
Proof.
  intros Hds%names_to_defs_Forall2 Hn Hdef.
  assert (Hin : n ∈ filter (fun n => jedi.is_definition n = true) todo)
    by (by apply list_elem_of_filter).
  apply list_elem_of_lookup in Hin as [i Hi].
  destruct (Forall2_lookup_l _ _ _ _ _ Hds Hi) as (D & HD & Hconv).
  exists D. split; [done|]. by eapply list_elem_of_lookup_2.
Qed.

Lemma all_defs_elem_2 (files : list string) (ds : list Def.t) (f : string)
  (n : jedi.Name) :
  all_defs_ files = Ok ds -> f ∈ files -> n ∈ names f ->
  jedi.is_definition n = true ->
  exists D, fst (jedi_def_to_def cwd n f (LineColToOffConverter.init (Script_source f)) []) = Ok D /\ D ∈ ds.
Proof.
  intros (dss & -> & Hall)%all_defs_concat Hf Hn Hdef.
  apply list_elem_of_lookup in Hf as [i Hi].
  destruct (Forall2_lookup_l _ _ _ _ _ Hall Hi) as (d & Hd & Hfd).
  destruct (names_to_defs_elem_2 _ _ _ _ _ Hfd Hn Hdef) as (D & HD & HDin).
  exists D. split; [done|]. apply elem_of_concat. exists d.
  split; [done|]. by eapply list_elem_of_lookup_2.
Qed.

Lemma span_le (files : list string) (ds : list Def.t) (D : Def.t) :
  all_defs_ files = Ok ds -> D ∈ module_defs files ++ ds ->
  Def.DefStart D <= Def.DefEnd D.
Proof.
  intros Hds [Hm|He]%elem_of_app.
  - unfold module_defs in Hm. apply list_elem_of_In, in_rev, in_map_iff in Hm.
    destruct Hm as (f & <- & _). done.
  - destruct (all_defs_elem _ _ _ _ _ _ Hds He) as (f & n & _ & _ & _ & HOk).
    apply jedi_def_to_def_Ok in HOk as (_ & _ & -> & _).
    unfold Str.len. lia.
Qed.

Variable _quiet : bool.
Variable str_of_name : jedi.Name -> string.
Variable dict_items : list (string * json) -> list (string * json).
Variable json_dumps : json -> option Z -> string.
Variable str_of_Def : Def.t -> string.

Local Abbreviation graph_ :=
  (graph cwd _quiet Script_source names str_of_name dict_items json_dumps str_of_Def).

(** X8. A run prints a document exactly when it is given a file and every
    definition of every file can be converted. A use that cannot be
    converted never ends the run; without a file the run ends with an
    IndexError. *)
Theorem graph_succeeds_iff (dir_ : string) (files : list string) (pretty : bool)
  (s : list string) :
  ((exists out s', graph_ dir_ files pretty s = (Ok out, s')) <->
   files <> []
   /\ forall f n, f ∈ files -> n ∈ names f -> jedi.is_definition n = true ->
        exists D, fst (jedi_def_to_def cwd n f (LineColToOffConverter.init (Script_source f)) []) = Ok D)
  /\ (files = [] ->
      graph_ dir_ files pretty s = (Raise (IndexError "list index out of range"), s)).
Proof.
  split; [split|].
  - intros (out & s' & Hg). split.
    + intros ->. done.
    + apply graph_Ok_inv in Hg as (ds & Hds & _). apply all_defs_Ok_iff. eauto.
  - intros [Hne Hall]. apply all_defs_Ok_iff in Hall as [ds Hds].
    by eapply graph_total.
  - intros ->. done.
Qed.

(** X9. No definition is lost: in the document of a run, every definition
    of every file is there under its Path, itself or the first definition
    of the combined list that has this Path. *)
Theorem every_definition_has_its_path (dir_ : string) (files : list string)
  (pretty : bool) (s s' : list string) (out : output) (f : string) (n : jedi.Name) :
  graph_ dir_ files pretty s = (Ok out, s') ->
  f ∈ files -> n ∈ names f -> jedi.is_definition n = true ->
  exists D D', fst (jedi_def_to_def cwd n f (LineColToOffConverter.init (Script_source f)) []) = Ok D /\ D' ∈ Defs out /\ Def.Path D' = Def.Path D
    /\ jedi.module_path n <> "".
Proof.
  intros (ds & Hds & HD & _)%graph_Ok_inv Hf Hn Hdef.
  destruct (all_defs_elem_2 _ _ _ _ Hds Hf Hn Hdef) as (D & Hconv & HDin).
  destruct (keep_first_covers Def.Path ∅ (module_defs files ++ ds) D)
    as (D' & HD' & Hpath); [set_solver|set_solver|].
  exists D, D'. rewrite HD. repeat split; try done.
  unfold jedi_def_to_def in Hconv.
  destruct (full_name_of_def cwd n false); [|done].
  destruct (LineColToOffConverter.convert _ _ _); [|done]. simpl in Hconv.
  destruct (path.relpath cwd (jedi.module_path n)) eqn:Hrel; [|done].
  by eapply relpath_nonempty.
Qed.

(** X10. Every input file has its synthesized module definition under the
    Path of its module name in the document: no definition of the extractor
    takes the place of a module definition. *)
Theorem module_definitions_stay (dir_ : string) (files : list string)
  (pretty : bool) (s s' : list string) (out : output) (f : string) :
  graph_ dir_ files pretty s = (Ok out, s') -> f ∈ files ->
  exists D, D ∈ Defs out /\ D ∈ module_defs files
    /\ Def.Path D = Str.replace "." "/" (filename_to_module_name f)
    /\ Def.Kind D = "module" /\ Def.DefStart D = 0 /\ Def.DefEnd D = 0.
Proof.
  intros (ds & Hds & HD & _)%graph_Ok_inv Hf.
  assert (Hin : module_def (filename_to_module_name f) f ∈ module_defs files).
  { unfold module_defs. apply list_elem_of_In. apply -> in_rev.
    apply in_map_iff. exists f. split; [done|]. by apply list_elem_of_In. }
  destruct (keep_first_covers Def.Path ∅ (module_defs files) _ Hin)
    as (D & HDin & Hpath); [set_solver|].
  exists D. rewrite HD, keep_first_app.
  split; [apply elem_of_app; by left|].
  apply keep_first_elem in HDin. split; [done|]. split; [done|].
  unfold module_defs in HDin. apply list_elem_of_In, in_rev, in_map_iff in HDin.
  destruct HDin as (f' & <- & _). done.
Qed.

(** X11. The identity key (DefPath, DefFile, File, Start, End) is unique
    among the references of the document. *)
Theorem reference_keys_unique (dir_ : string) (files : list string)
  (pretty : bool) (s s' : list string) (out : output) :
  graph_ dir_ files pretty s = (Ok out, s') ->
  NoDup (ref_key <$> Refs out) /\ NoDup (Refs out).
Proof.
  intros (ds & Hds & HD & HR)%graph_Ok_inv.
  assert (Hnd : NoDup (ref_key <$> Refs out)).
  { rewrite HR.
    rewrite <- (keep_first_NoDup_id ref_key (map (self_ref cwd) (Defs out))) at 1.
    - replace (list_to_set (ref_key <$> map (self_ref cwd) (Defs out)))
        with (∅ ∪ list_to_set (ref_key <$> map (self_ref cwd) (Defs out))
              : gset (string * string * string * Z * Z)) by set_solver.
      rewrite <- keep_first_app. apply keep_first_NoDup.
    - apply self_refs_NoDup. rewrite HD. apply keep_first_NoDup. }
  split; [done|]. by eapply NoDup_fmap_1.
Qed.

(** X12. Every reference of the document has Start <= End. A reference
    of the extractor lies in the input file in which the engine reported it
    and spans the name of the occurrence; a self-reference is never marked
    as built in. *)
Theorem reference_spans (dir_ : string) (files : list string)
  (pretty : bool) (s s' : list string) (out : output) (R : Ref.t) :
  graph_ dir_ files pretty s = (Ok out, s') -> R ∈ Refs out ->
  Ref.Start R <= Ref.End_ R
  /\ (Ref.Def R = false ->
      Ref.File R ∈ files
      /\ exists n, n ∈ names (Ref.File R) /\ jedi.is_definition n = false
           /\ Ref.End_ R = Ref.Start R + Str.len (jedi.name n)
           /\ Ref.ToBuiltin R = jedi.in_builtin_module n
           /\ jedi.module_path n <> "")
  /\ (Ref.Def R = true ->
      Ref.ToBuiltin R = false /\ exists D, D ∈ Defs out /\ R = self_ref cwd D).
Proof.
  intros (ds & Hds & HD & HR)%graph_Ok_inv HRin. rewrite HR in HRin.
  apply elem_of_app in HRin as [HRin|HRin].
  - rewrite map_fmap in HRin. apply list_elem_of_fmap in HRin as (D & -> & HDin).
    split; [|split; [done|]].
    + simpl. eapply span_le; [done|]. rewrite HD in HDin.
      by eapply keep_first_elem.
    + intros _. split; [done|]. eauto.
  - apply keep_first_elem, all_refs_elem in HRin as (f & n & Hf & Hn & Hdef & HOk).
    pose proof (name_to_ref_Ok _ _ _ _ _ HOk) as (Hfalse & Hrel & <- & Hb & Hend).
    split; [unfold Str.len in Hend; lia|]. split; [|congruence].
    intros _. split; [done|]. exists n. repeat split; try done.
    by eapply relpath_nonempty.
Qed.

End Document.

(** The run over [pkg/m.py] and [pkg/n.py], in which the use of [lib]
    cannot be converted. *)
Lemma graph_succeeds_iff_witness :
  ["pkg/m.py"; "pkg/n.py"] <> []
  /\ forall f n, f ∈ ["pkg/m.py"; "pkg/n.py"] -> n ∈ Scenario.names f ->
       jedi.is_definition n = true ->
       exists D, fst (jedi_def_to_def Scenario.cwd n f
                        (LineColToOffConverter.init (Scenario.Script_source f)) []) = Ok D.
Proof.
  refine (proj1 (proj1 (graph_succeeds_iff Scenario.cwd Scenario.Script_source
                   Scenario.names false Scenario.str_of_name id Scenario.json_dumps
                   Scenario.str_of_Def "." ["pkg/m.py"; "pkg/n.py"] false [])) _).
  exists (output_of (Scenario.run false id ["pkg/m.py"; "pkg/n.py"])),
         (snd (Scenario.run false id ["pkg/m.py"; "pkg/n.py"])).
  vm_compute. reflexivity.
Defined.

(** The occurrence [self.x = 1] of [pkg/m.py]. *)
Lemma every_definition_has_its_path_witness :
  let r := Scenario.run false id ["pkg/m.py"; "pkg/n.py"] in
  exists D D',
    fst (jedi_def_to_def Scenario.cwd Scenario.self_x "pkg/m.py"
           (LineColToOffConverter.init (Scenario.Script_source "pkg/m.py")) []) = Ok D
    /\ D' ∈ Defs (output_of r) /\ Def.Path D' = Def.Path D.
Proof.
  intros r.
  destruct (every_definition_has_its_path Scenario.cwd Scenario.Script_source
              Scenario.names false Scenario.str_of_name id Scenario.json_dumps
              Scenario.str_of_Def "." ["pkg/m.py"; "pkg/n.py"] false []
              (snd r) (output_of r) "pkg/m.py" Scenario.self_x)
    as (D & D' & H1 & H2 & H3 & _).
  - vm_compute. reflexivity.
  - vm_compute. repeat constructor.
  - vm_compute. repeat constructor.
  - reflexivity.
  - exists D, D'. repeat split; assumption.
Defined.

Lemma module_definitions_stay_witness :
  let r := Scenario.run false id ["pkg/m.py"; "pkg/n.py"] in
  exists D, D ∈ Defs (output_of r) /\ Def.Path D = "pkg/n" /\ Def.Kind D = "module".
Proof.
  intros r.
  destruct (module_definitions_stay Scenario.cwd Scenario.Script_source
              Scenario.names false Scenario.str_of_name id Scenario.json_dumps
              Scenario.str_of_Def "." ["pkg/m.py"; "pkg/n.py"] false []
              (snd r) (output_of r) "pkg/n.py")
    as (D & H1 & _ & H2 & H3 & _).
  - vm_compute. reflexivity.
  - vm_compute. repeat constructor.
  - exists D. repeat split; assumption.
Defined.

Lemma reference_keys_unique_witness :
  NoDup (ref_key <$> Refs (output_of (Scenario.run false id ["pkg/m.py"; "pkg/n.py"]))).
Proof.
  refine (proj1 (reference_keys_unique Scenario.cwd Scenario.Script_source
                   Scenario.names false Scenario.str_of_name id Scenario.json_dumps
                   Scenario.str_of_Def "." ["pkg/m.py"; "pkg/n.py"] false []
                   (snd (Scenario.run false id ["pkg/m.py"; "pkg/n.py"]))
                   (output_of (Scenario.run false id ["pkg/m.py"; "pkg/n.py"])) _)).
  vm_compute. reflexivity.
Defined.

(** The use of [os] in [pkg/n.py]. *)
Lemma reference_spans_witness :
  let R := Ref.mk "os" "../../../usr/lib/python2.7/os.py" false "pkg/n.py" 12 14 false in
  Ref.Start R <= Ref.End_ R.
Proof.
  intros R.
  refine (proj1 (reference_spans Scenario.cwd Scenario.Script_source
                   Scenario.names false Scenario.str_of_name id Scenario.json_dumps
                   Scenario.str_of_Def "." ["pkg/m.py"; "pkg/n.py"] false []
                   (snd (Scenario.run false id ["pkg/m.py"; "pkg/n.py"]))
                   (output_of (Scenario.run false id ["pkg/m.py"; "pkg/n.py"])) R _ _)).
  - vm_compute. reflexivity.
  - vm_compute. repeat constructor.
Defined.

(** X13. The quiet flag and the way diagnostics are worded or have
    accumulated change nothing in what a run computes and prints to
    standard output, nor in whether and how it fails. *)
Theorem document_free_of_diagnostics (cwd : string) (quiet1 quiet2 : bool)
  (Script_source : string -> string) (names : string -> list jedi.Name)
  (str_of_name1 str_of_name2 : jedi.Name -> string)
  (dict_items : list (string * json) -> list (string * json))
  (json_dumps : json -> option Z -> string) (str_of_Def1 str_of_Def2 : Def.t -> string)
  (dir_ : string) (files : list string) (pretty : bool) (s1 s2 : list string) :
  fst (graph cwd quiet1 Script_source names str_of_name1 dict_items json_dumps
         str_of_Def1 dir_ files pretty s1)
  = fst (graph cwd quiet2 Script_source names str_of_name2 dict_items json_dumps
           str_of_Def2 dir_ files pretty s2).
Proof.
  unfold graph.
  pose proof (collect_fst cwd quiet1 Script_source names str_of_name1 files [] [] s1) as H1.
  pose proof (collect_fst cwd quiet2 Script_source names str_of_name2 files [] [] s2) as H2.
  destruct (collect cwd quiet1 _ _ _ _ _ _ _) as [r1 t1].
  destruct (collect cwd quiet2 _ _ _ _ _ _ _) as [r2 t2].
  simpl in H1, H2. rewrite <- H2 in H1. subst r2.
  destruct r1 as [[defs refs]|e]; [|done].
  destruct (assemble cwd files defs refs) as [ud ur]. by destruct ud.
Qed.

(** X14. De-duplicating what has been de-duplicated changes nothing, for
    the definitions and for the references. *)
Theorem deduplication_idempotent (defs : list Def.t) (refs : list Ref.t) :
  fst (unique_defs_loop (fst (unique_defs_loop defs [] ∅)) [] ∅)
  = fst (unique_defs_loop defs [] ∅)
  /\ fst (unique_refs_loop (fst (unique_refs_loop refs [] ∅)) [] ∅)
     = fst (unique_refs_loop refs [] ∅).
Proof.
  rewrite !unique_defs_loop_eq, !unique_refs_loop_eq. simpl. split.
  - apply keep_first_NoDup_id, keep_first_NoDup.
  - apply keep_first_NoDup_id, keep_first_NoDup.
Qed.

(** X15. Whatever the order in which a mapping hands out its items, the
    records of the document carry their fields in this order: Data, DefEnd,
    DefStart, Docstring, Exported, File, Kind, Name, Path for a definition
    and Def, DefFile, DefPath, End, File, Start, ToBuiltin for a
    reference. *)
Theorem record_field_order
  (dict_items : list (string * json) -> list (string * json)) (D : Def.t) (R : Ref.t) :
  (forall l, Permutation (dict_items l) l) ->
  order_dict dict_items (Def_fields D)
  = JDict [("Data", match Def.Data D with Some x => JStr x | None => JNone end);
           ("DefEnd", JInt (Def.DefEnd D)); ("DefStart", JInt (Def.DefStart D));
           ("Docstring", JStr (Def.Docstring D)); ("Exported", JBool (Def.Exported D));
           ("File", JStr (Def.File D)); ("Kind", JStr (Def.Kind D));
           ("Name", JStr (Def.Name D)); ("Path", JStr (Def.Path D))]
  /\ order_dict dict_items (Ref_fields R)
     = JDict [("Def", JBool (Ref.Def R)); ("DefFile", JStr (Ref.DefFile R));
              ("DefPath", JStr (Ref.DefPath R)); ("End", JInt (Ref.End_ R));
              ("File", JStr (Ref.File R)); ("Start", JInt (Ref.Start R));
              ("ToBuiltin", JBool (Ref.ToBuiltin R))].
Proof.
  intros Hperm. unfold order_dict. split; f_equal.
  - rewrite (sorted_by_key_order_free (Def_fields D)); [done|done|].
    apply Def_fields_keys.
  - rewrite (sorted_by_key_order_free (Ref_fields R)); [done|done|].
    apply Ref_fields_keys.
Qed.

Lemma record_field_order_witness :
  order_dict (@rev (string * json))
    (Ref_fields (Ref.mk "pkg/m/C" "pkg/m.py" false "pkg/m.py" 56 57 false))
  = JDict [("Def", JBool false); ("DefFile", JStr "pkg/m.py");
           ("DefPath", JStr "pkg/m/C"); ("End", JInt 57);
           ("File", JStr "pkg/m.py"); ("Start", JInt 56);
           ("ToBuiltin", JBool false)].
Proof.
  refine (proj2 (record_field_order (@rev (string * json))
                   (Def.mk "" "" "" "" 0 0 true "" None)
                   (Ref.mk "pkg/m/C" "pkg/m.py" false "pkg/m.py" 56 57 false) _)).
  intros l. apply Permutation_sym, Permutation_rev.
Defined.

(** ** The batches *)

Lemma chunks_concat {A : Type} (l : list A) (step m : nat) :
  concat (map (fun k => take step (drop (k * step) l)) (seq 0 m)) = take (m * step) l.
Proof.
  induction m as [|m IH]; [done|].
  rewrite seq_S, map_app, concat_app, IH. simpl. rewrite app_nil_r.
  rewrite take_take_drop. f_equal. lia.
Qed.

Lemma ceil_div_bounds (n step : nat) :
  (0 < step)%nat ->
  let m := ((n + step - 1) / step)%nat in
  (n <= m * step)%nat /\ (forall k, (k < m)%nat -> (k * step < n)%nat).
Proof.
  intros Hs m.
  pose proof (Nat.div_mod_eq (n + step - 1) step) as Hdm.
  pose proof (Nat.mod_upper_bound (n + step - 1) step ltac:(lia)) as Hmod.
  fold m in Hdm. split; [nia|]. intros k Hk. nia.
Qed.

(** X16. The loop of [graph_wrapper] cuts the list of files into
    consecutive batches that together are the list: batch [k] starts at
    index [10 k], no batch is empty, none has more than ten files, and all
    but the last have ten. *)
Theorem batches_partition (source_files : list string) :
  concat (map snd (batches source_files)) = source_files
  /\ map fst (batches source_files)
     = map (fun k => (k * 10)%nat) (seq 0 (length (batches source_files)))
  /\ length (batches source_files) = ((length source_files + 9) / 10)%nat
  /\ forall k i b, batches source_files !! k = Some (i, b) ->
       b = take 10 (drop i source_files)
       /\ (0 < length b <= 10)%nat
       /\ ((S k < length (batches source_files))%nat -> length b = 10%nat).
Proof.
  unfold batches, py_range0, SOURCE_FILE_BATCH.
  set (n := length source_files).
  replace (n + 10 - 1)%nat with (n + 9)%nat by lia.
  set (m := ((n + 9) / 10)%nat).
  destruct (ceil_div_bounds n 10 ltac:(lia)) as [Hup Hlow].
  replace (n + 10 - 1)%nat with (n + 9)%nat in * by lia. fold m in Hup, Hlow.
  rewrite !map_map. simpl. rewrite !length_map, length_seq.
  split; [|split; [done|split; [done|]]].
  - rewrite (chunks_concat source_files 10 m). apply take_ge. fold n. lia.
  - intros k i b Hk. rewrite map_fmap, list_lookup_fmap in Hk.
    destruct (seq 0 m !! k) as [k'|] eqn:Hseq; [|done].
    apply lookup_seq in Hseq as [-> Hkm]. simpl in Hk. injection Hk as <- <-.
    split; [done|]. rewrite length_take, length_drop. fold n.
    pose proof (Hlow k Hkm) as Hk1. split; [lia|].
    intros HS. pose proof (Hlow (S k) HS) as Hk2. lia.
Qed.

(** ** The batch coordinator *)

Lemma sorted_fixed {A : Type} (l : list (string * A)) :
  StronglySorted key_le l -> NoDup (fst <$> l) -> sorted_by_key l = l.
Proof.
  intros Hs Hnd. apply sorted_unique; [apply sorted_by_key_sorted|done| |].
  - apply sorted_by_key_perm.
  - by rewrite sorted_by_key_perm.
Qed.

Lemma map_result_id {A : Type} (f : A -> result A) (l : list A) :
  (forall x, x ∈ l -> f x = Ok x) -> map_result f l = Ok l.
Proof.
  induction l as [|x l IH]; intros Hl; simpl; [done|].
  rewrite Hl by (by left). simpl. rewrite IH; [done|].
  intros y Hy. apply Hl. by right.
Qed.

Section WrapperFacts.
Variable cwd : string.
Variable _quiet : bool.
Variable _verbose : bool.
Variable Script_source : string -> string.
Variable names : string -> list jedi.Name.
Variable str_of_name : jedi.Name -> string.
Variable dict_items : list (string * json) -> list (string * json).
Variable json_dumps : json -> option Z -> string.
Variable json_loads : string -> result json.
Variable str_of_Def : Def.t -> string.
Variable os_walk : string -> list (string * list string * list string).
Variable traceback : exn -> string.
Hypothesis dict_items_perm : forall l, Permutation (dict_items l) l.

Local Abbreviation graph_ :=
  (graph cwd _quiet Script_source names str_of_name dict_items json_dumps str_of_Def).
Local Abbreviation run_batch_ :=
  (run_batch cwd _quiet _verbose Script_source names str_of_name dict_items
     json_dumps json_loads str_of_Def traceback).
Local Abbreviation batch_loop_ :=
  (batch_loop cwd _quiet _verbose Script_source names str_of_name dict_items
     json_dumps json_loads str_of_Def traceback).
Local Abbreviation graph_wrapper_ :=
  (graph_wrapper cwd _quiet _verbose Script_source names str_of_name dict_items
     json_dumps json_loads str_of_Def os_walk traceback).

(** The records of a document, as [graph] puts them there. *)
Local Abbreviation doc_defs out :=
  (map (fun d => order_dict dict_items (Def_fields d)) (Defs out)).
Local Abbreviation doc_refs out :=
  (map (fun r => order_dict dict_items (Ref_fields r)) (Refs out)).

Lemma graph_stdout (dir_ : string) (files : list string) (pretty : bool)
  (s s' : list string) (out : output) :
  graph_ dir_ files pretty s = (Ok out, s') ->
  stdout out
  = json_dumps (document_of dict_items out) (if pretty then Some 2 else None) +:+ nl.
Proof.
  unfold graph.
  destruct (collect _ _ _ _ _ _ _ _ _) as [[[defs refs]|e] s1]; [|done].
  destruct (assemble cwd files defs refs) as [ud ur].
  destruct ud as [|d0 ud]; [done|]. by intros [= <- _].
Qed.

Lemma graph_fst_stderr (dir_ : string) (files : list string) (pretty : bool)
  (s1 s2 : list string) :
  fst (graph_ dir_ files pretty s1) = fst (graph_ dir_ files pretty s2).
Proof.
  unfold graph.
  pose proof (collect_fst cwd _quiet Script_source names str_of_name files [] [] s1) as H1.
  pose proof (collect_fst cwd _quiet Script_source names str_of_name files [] [] s2) as H2.
  destruct (collect _ _ _ _ _ _ _ _ s1) as [r1 t1].
  destruct (collect _ _ _ _ _ _ _ _ s2) as [r2 t2].
  simpl in H1, H2. rewrite <- H2 in H1. subst r2.
  destruct r1 as [[defs refs]|e]; [|done].
  destruct (assemble cwd files defs refs) as [ud ur]. by destruct ud.
Qed.

Lemma order_dict_JDict (l : list (string * json)) :
  NoDup (fst <$> l) -> order_dict dict_items l = JDict (sorted_by_key l).
Proof.
  intros Hnd. unfold order_dict. f_equal. by apply sorted_by_key_order_free.
Qed.

(** Ordering an ordered record again gives the record. *)
Lemma reorder_ordered (l : list (string * json)) :
  NoDup (fst <$> l) ->
  (let* items := json_items (order_dict dict_items l) in
   Ok (order_dict dict_items items))
  = Ok (order_dict dict_items l).
Proof.
  intros Hnd. rewrite (order_dict_JDict l Hnd). simpl.
  rewrite order_dict_JDict by (by rewrite sorted_by_key_perm).
  rewrite sorted_fixed; [done|apply sorted_by_key_sorted|].
  by rewrite sorted_by_key_perm.
Qed.

Lemma ordered_records_document (out : output) :
  ordered_records dict_items (document_of dict_items out) "Defs" = Ok (doc_defs out)
  /\ ordered_records dict_items (document_of dict_items out) "Refs" = Ok (doc_refs out).
Proof.
  unfold ordered_records, document_of.
  rewrite order_dict_JDict by (simpl; apply (bool_decide_unpack _); vm_compute; exact I).
  split.
  - change (json_getitem _ "Defs") with (Ok (JList (doc_defs out))). simpl.
    apply map_result_id. intros x Hx. rewrite map_fmap in Hx.
    apply list_elem_of_fmap in Hx as (D & -> & _).
    apply reorder_ordered, Def_fields_keys.
  - change (json_getitem _ "Refs") with (Ok (JList (doc_refs out))). simpl.
    apply map_result_id. intros x Hx. rewrite map_fmap in Hx.
    apply list_elem_of_fmap in Hx as (R & -> & _).
    apply reorder_ordered, Ref_fields_keys.
Qed.

Local Abbreviation read_back :=
  (read_back cwd _quiet Script_source names str_of_name dict_items json_dumps
     json_loads str_of_Def).

Lemma run_batch_read_back (i : nat) (batch : list string) (total : nat)
  (pretty : bool) (s : list string) (out : output) :
  read_back pretty (i, batch) out ->
  exists s', run_batch_ i batch total pretty s = (Ok (doc_defs out, doc_refs out), s').
Proof.
  intros [Hg Hl]. unfold run_batch. simpl in Hg.
  rewrite (graph_fst_stderr "." batch pretty []
             (log _verbose
                ("processing source files " +:+ Str.of_Z (Z.of_nat i) +:+ " to "
                 +:+ Str.of_Z (Z.of_nat (i + SOURCE_FILE_BATCH)) +:+ " of "
                 +:+ Str.of_Z (Z.of_nat total)) s)) in Hg.
  destruct (graph_ "." batch pretty _) as [child s1]. simpl in Hg. subst child.
  rewrite Hl. cbn [bind].
  destruct (ordered_records_document out) as [-> ->]. eauto.
Qed.

Lemma run_batch_failed (i : nat) (batch : list string) (total : nat)
  (pretty : bool) (s : list string) (e e' : exn) :
  fst (graph_ "." batch pretty []) = Raise e -> json_loads "" = Raise e' ->
  exists s', run_batch_ i batch total pretty s = (Raise e', s').
Proof.
  intros Hg Hl. unfold run_batch.
  rewrite (graph_fst_stderr "." batch pretty []
             (log _verbose
                ("processing source files " +:+ Str.of_Z (Z.of_nat i) +:+ " to "
                 +:+ Str.of_Z (Z.of_nat (i + SOURCE_FILE_BATCH)) +:+ " of "
                 +:+ Str.of_Z (Z.of_nat total)) s)) in Hg.
  destruct (graph_ "." batch pretty _) as [child s1]. simpl in Hg. subst child.
  rewrite Hl. simpl. eauto.
Qed.

Lemma batch_loop_prefix (pre rest : list (nat * list string)) (outs : list output)
  (total : nat) (pretty : bool) (defs refs : list json) (s : list string) :
  Forall2 (read_back pretty) pre outs ->
  exists s',
    batch_loop_ (pre ++ rest) total pretty defs refs s
    = batch_loop_ rest total pretty
        (defs ++ concat (map (fun o => doc_defs o) outs))
        (refs ++ concat (map (fun o => doc_refs o) outs)) s'.
Proof.
  intros Hall. revert defs refs s.
  induction Hall as [|[i b] o pre outs Ho Hall IH]; intros defs refs s.
  - simpl. rewrite !app_nil_r. eauto.
  - destruct (run_batch_read_back i b total pretty s o Ho) as [s1 Hrun].
    cbn [app batch_loop]. rewrite Hrun.
    destruct (IH (defs ++ doc_defs o) (refs ++ doc_refs o) s1) as [s' ->].
    exists s'. simpl. by rewrite <- !app_assoc.
Qed.


(** X18. When the child of a batch ends with an exception, it has printed
    nothing, [json.loads] fails on the empty text, and [graph_wrapper] ends
    with that failure: the batches after it are not run and no document is
    printed, although the batches before it were read back. *)
Theorem graph_wrapper_stops_at_failed_batch (dir_ : string) (pretty : bool)
  (nSourceFilesTrunc : option Z) (s : list string) (found : list string)
  (pre post : list (nat * list string)) (i : nat) (batch : list string)
  (outs : list output) (e e' : exn) :
  get_source_files cwd os_walk "." = Ok found ->
  batches (match nSourceFilesTrunc with
           | Some n => py_slice_to found n
           | None => found
           end) = pre ++ (i, batch) :: post ->
  Forall2 (read_back pretty) pre outs ->
  fst (graph_ "." batch pretty []) = Raise e ->
  json_loads "" = Raise e' ->
  fst (graph_wrapper_ dir_ pretty nSourceFilesTrunc s) = Raise e'.
Proof.
  intros Hfound Hb Hall Hchild Hloads. unfold graph_wrapper. rewrite Hfound, Hb.
  destruct (batch_loop_prefix pre ((i, batch) :: post) outs
              (length (match nSourceFilesTrunc with
                       | Some n => py_slice_to found n
                       | None => found
                       end)) pretty [] [] s Hall) as [s1 ->].
  cbn [batch_loop].
  destruct (run_batch_failed i batch
              (length (match nSourceFilesTrunc with
                       | Some n => py_slice_to found n
                       | None => found
                       end)) pretty s1 e e' Hchild Hloads) as [s2 ->].
  done.
Qed.

(** X19. Without a source file, or with a file limit of 0, [graph_wrapper]
    runs no batch and prints the document of two empty lists; [graph] on no
    file fails instead. *)
Theorem graph_wrapper_without_files (dir_ : string) (pretty : bool)
  (nSourceFilesTrunc : option Z) (s : list string) (found : list string) :
  get_source_files cwd os_walk "." = Ok found ->
  found = [] \/ nSourceFilesTrunc = Some 0 ->
  graph_wrapper_ dir_ pretty nSourceFilesTrunc s
  = (Ok (json_dumps (JDict (dict_items [("Defs", JList []); ("Refs", JList [])]))
           (if pretty then Some 2 else None) +:+ nl), s)
  /\ fst (graph_ dir_ [] pretty s) = Raise (IndexError "list index out of range").
Proof.
  intros Hfound Hcase. split; [|done]. unfold graph_wrapper. rewrite Hfound.
  assert (Hfiles : match nSourceFilesTrunc with
                   | Some n => py_slice_to found n
                   | None => found
                   end = []).
  { destruct Hcase as [->| ->].
    - destruct nSourceFilesTrunc as [n|]; [|done].
      unfold py_slice_to. destruct (n <? 0); apply take_nil.
    - unfold py_slice_to. simpl. apply take_0. }
  rewrite Hfiles. done.
Qed.

End WrapperFacts.

Lemma id_perm {A : Type} (l : list A) : Permutation (id l) l.
Proof. apply Permutation_refl. Qed.


(** The tree with [bad.py], whose second definition lies beyond the text. *)
Lemma graph_wrapper_stops_at_failed_batch_witness :
  fst (Tree.wrapper Tree.walk_bad None)
  = Raise (ValueError "No JSON object could be decoded").
Proof.
  apply (graph_wrapper_stops_at_failed_batch Scenario.cwd false false
           Scenario.Script_source Scenario.names Scenario.str_of_name id
           Scenario.json_dumps Tree.json_loads Scenario.str_of_Def Tree.walk_bad
           Tree.traceback id_perm "." false None [] ["bad.py"; "pkg/n.py"]
           [] [] 0%nat ["bad.py"; "pkg/n.py"] []
           (TypeError "can only concatenate tuple (not int) to tuple")).
  - vm_compute. reflexivity.
  - vm_compute. reflexivity.
  - constructor.
  - vm_compute. reflexivity.
  - vm_compute. reflexivity.
Defined.

Lemma graph_wrapper_without_files_witness :
  Tree.wrapper Tree.walk_pkg (Some 0)
  = (Ok (Scenario.json_dumps (JDict [("Defs", JList []); ("Refs", JList [])]) None
         +:+ nl), []).
Proof.
  refine (proj1 (graph_wrapper_without_files Scenario.cwd false false
                   Scenario.Script_source Scenario.names Scenario.str_of_name id
                   Scenario.json_dumps Tree.json_loads Scenario.str_of_Def Tree.walk_pkg
                   Tree.traceback "." false (Some 0) [] ["pkg/m.py"; "pkg/n.py"] _ _)).
  - vm_compute. reflexivity.
  - right. reflexivity.
Defined.

(** ** The source files of a tree *)

Lemma split_no_sep (c : ascii) (f : string) :
  has_char c f = false -> Str.split c f = [f].
Proof.
  induction f as [|x f IH]; simpl; [done|].
  intros [Hx Hf]%orb_false_elim. by rewrite Hx, IH.
Qed.

Lemma split_app_sep (c : ascii) (a b : string) :
  Str.split c (a +:+ String c b) = Str.split c a ++ Str.split c b.
Proof.
  induction a as [|x a IH].
  - simpl. by rewrite Ascii.eqb_refl.
  - change (String x a +:+ String c b) with (String x (a +:+ String c b)).
    cbn [Str.split]. rewrite IH. destruct (Ascii.eqb x c); [done|].
    pose proof (split_not_nil c a). by destruct (Str.split c a).
Qed.

Lemma endswith_char_inv (c : ascii) (a : string) :
  Str.endswith_char a c = true -> exists a', a = a' +:+ String c "".
Proof.
  induction a as [|x a IH]; [done|]. destruct a as [|y a].
  - simpl. intros ->%Ascii.eqb_eq. by exists "".
  - intros Ha. change (Str.endswith_char (String y a) c = true) in Ha.
    destruct (IH Ha) as [a' ->]. by exists (String x a').
Qed.

Lemma no_sep_not_abs (f : string) :
  has_char path.sep f = false -> Str.startswith f "/" = false.
Proof.
  destruct f as [|x f]; [done|]. intros Hf. cbn [has_char] in Hf.
  apply orb_false_elim in Hf as [Hx _]. by rewrite startswith_slash_cons.
Qed.

Lemma append_sep_assoc (c : ascii) (a f : string) :
  (a +:+ String c "") +:+ f = a +:+ String c f.
Proof.
  induction a as [|y a IH]; [done|].
  change (String y ((a +:+ String c "") +:+ f) = String y (a +:+ String c f)).
  by rewrite IH.
Qed.

(** The pieces of a directory joined with a file name end with the name. *)
Lemma split_join2 (r f : string) :
  has_char path.sep f = false ->
  exists cs, Str.split path.sep (path.join2 r f) = cs ++ [f].
Proof.
  intros Hf. unfold path.join2. rewrite (no_sep_not_abs f Hf).
  destruct r as [|x r].
  - exists []. simpl. by apply split_no_sep.
  - cbn [Str.is_empty orb].
    destruct (Str.endswith_char (String x r) path.sep) eqn:Hend.
    + apply endswith_char_inv in Hend as [a' Ha'].
      exists (Str.split path.sep a').
      rewrite Ha', append_sep_assoc, split_app_sep.
      by rewrite (split_no_sep path.sep f Hf).
    + exists (Str.split path.sep (String x r)).
      change (String x r +:+ "/" +:+ f) with (String x r +:+ String path.sep f).
      rewrite split_app_sep. by rewrite (split_no_sep path.sep f Hf).
Qed.

Lemma norm_comps_app (b : bool) (cs1 cs2 acc : list string) :
  path.norm_comps b (cs1 ++ cs2) acc = path.norm_comps b cs2 (path.norm_comps b cs1 acc).
Proof.
  revert acc. induction cs1 as [|c cs1 IH]; intros acc; simpl; [done|].
  destruct (String.eqb c "" || String.eqb c "."); [apply IH|].
  destruct (_ || _ || _); apply IH.
Qed.

Lemma Forall_removelast {A : Type} (P : A -> Prop) (l : list A) :
  Forall P l -> Forall P (removelast l).
Proof.
  induction l as [|x l IH]; intros Hl; simpl; [done|].
  inversion Hl; subst. destruct l; [constructor|]. constructor; [done|by apply IH].
Qed.

Lemma norm_comps_plain (b : bool) (cs acc : list string) :
  Forall plain acc -> Forall (fun w => Str.startswith w "/" = false) cs ->
  Forall plain (path.norm_comps b cs acc).
Proof.
  revert acc. induction cs as [|c cs IH]; intros acc Hacc Hcs; simpl; [done|].
  inversion Hcs; subst.
  destruct (String.eqb_spec c "") as [->|Hc]; simpl; [by apply IH|].
  destruct (String.eqb c "."); [by apply IH|].
  destruct (_ || _ || _).
  - apply IH; [|done]. apply Forall_app. split; [done|]. by repeat constructor.
  - apply IH; [|done]. by apply Forall_removelast.
Qed.

Lemma string_app_assoc (a b c : string) : (a +:+ b) +:+ c = a +:+ b +:+ c.
Proof.
  induction a as [|x a IH]; [done|].
  change (String x ((a +:+ b) +:+ c) = String x (a +:+ b +:+ c)). by rewrite IH.
Qed.

Lemma join_snoc (sep : string) (xs : list string) (f : string) :
  Str.join sep (xs ++ [f])
  = match xs with
    | [] => f
    | _ => Str.join sep xs +:+ sep +:+ f
    end.
Proof.
  induction xs as [|x xs IH]; [done|].
  destruct xs as [|y xs]; [done|].
  change (Str.join sep ((x :: y :: xs) ++ [f]))
    with (x +:+ sep +:+ Str.join sep ((y :: xs) ++ [f])).
  rewrite IH, join_cons_cons. by rewrite !string_app_assoc.
Qed.

Lemma join_plain (xs : list string) :
  Forall plain xs -> xs <> [] -> plain (Str.join "/" xs).
Proof.
  intros Hall Hne. destruct xs as [|x xs]; [done|]. inversion Hall as [|? ? [Hx Hx'] ?]; subst.
  destruct xs as [|y xs]; [done|]. rewrite join_cons_cons. split.
  - by destruct x.
  - by rewrite startswith_slash_app.
Qed.

Lemma splitext_ext_of_tail (pre f : string) :
  has_char path.sep f = false ->
  snd (path.splitext (pre +:+ "/" +:+ f)) = snd (path.splitext f)
  /\ path.basename (pre +:+ "/" +:+ f) = f.
Proof.
  intros Hf. split; [|by apply basename_dir_file].
  unfold path.splitext.
  change (pre +:+ "/" +:+ f) with (pre +:+ String path.sep f).
  rewrite rcut_app_sep, rcut_no_sep by done.
  destruct (Str.rcut_at "." f) as [[stem ext]|]; [|done].
  by destruct (Str.all_char "." stem).
Qed.

Lemma python_name_ordinary (f : string) :
  snd (path.splitext f) = ".py" -> f <> "" /\ f <> "." /\ f <> "..".
Proof. intros Hf. repeat split; intros ->; vm_compute in Hf; discriminate. Qed.

(** What [get_source_files] makes of a file name [f] with the extension
    [.py] in a directory with the relative path [r]. *)
Lemma normpath_dir_file (r f : string) :
  plain r -> has_char path.sep f = false -> snd (path.splitext f) = ".py" ->
  let p := path.normpath (path.join2 r f) in
  path.isabs p = false /\ snd (path.splitext p) = ".py" /\ path.basename p = f.
Proof.
  intros [Hr Hr'] Hf Hpy p.
  destruct (python_name_ordinary f Hpy) as (Hf1 & Hf2 & Hf3).
  destruct (split_join2 r f Hf) as [cs Hcs].
  assert (Hjoin_abs : Str.startswith (path.join2 r f) "/" = false)
    by (apply join2_not_abs; [done|by apply no_sep_not_abs]).
  assert (Hjoin_ne : Str.is_empty (path.join2 r f) = false).
  { unfold path.join2. rewrite (no_sep_not_abs f Hf).
    destruct r; [done|]. by destruct (_ || _). }
  assert (Hp : p = Str.join "/" (path.norm_comps false cs [] ++ [f])).
  { unfold p, path.normpath. rewrite Hjoin_ne, Hjoin_abs. cbn [Nat.eqb negb].
    rewrite Hcs, norm_comps_app. cbn [path.norm_comps].
    rewrite (proj2 (String.eqb_neq f "")), (proj2 (String.eqb_neq f ".")),
      (proj2 (String.eqb_neq f "..")) by done.
    cbn [orb negb]. rewrite join_snoc.
    destruct (path.norm_comps false cs []) as [|x xs]; [by destruct f|].
    by destruct (Str.join "/" (x :: xs)). }
  assert (Hplain : Forall plain (path.norm_comps false cs [])).
  { apply norm_comps_plain; [constructor|].
    pose proof (split_no_leading_sep (path.join2 r f)) as Hall.
    rewrite Hcs in Hall. by apply Forall_app in Hall as [? _]. }
  rewrite Hp, join_snoc.
  destruct (path.norm_comps false cs []) as [|x xs] eqn:Hxs.
  - repeat split; [by apply no_sep_not_abs|done|].
    unfold path.basename. by rewrite rcut_no_sep.
  - destruct (join_plain (x :: xs) Hplain ltac:(done)) as [Hne Habs].
    destruct (splitext_ext_of_tail (Str.join "/" (x :: xs)) f Hf) as [Hext Hbase].
    repeat split.
    + unfold path.isabs. by rewrite startswith_slash_app.
    + by rewrite Hext.
    + done.
Qed.

Lemma relpath_start_plain (cwd p start r : string) :
  relpath_start cwd p start = Ok r -> plain r.
Proof.
  unfold relpath_start. destruct (Str.is_empty p); [done|].
  set (start_list := path.nonempty_comps (path.abspath cwd start)).
  set (path_list := path.nonempty_comps (path.abspath cwd p)).
  set (i := path.commonprefix_len start_list path_list).
  assert (Hall : Forall plain (repeat ".." (length start_list - i) ++ drop i path_list)).
  { apply Forall_app. split.
    - apply Forall_forall. intros w Hw%list_elem_of_In%repeat_spec. by subst.
    - apply Forall_drop, nonempty_comps_plain. }
  destruct (repeat ".." (length start_list - i) ++ drop i path_list) as [|a rest].
  - by intros [= <-].
  - simpl. intros [= <-]. inversion Hall; subst. by apply fold_join2_plain.
Qed.

(** With the current directory as the start, [relpath_start] is the
    [relpath] of the extractor. *)
Lemma relpath_start_curdir (cwd p : string) :
  relpath_start cwd p "." = path.relpath cwd p.
Proof. done. Qed.

Section SourceFiles.
Variable cwd : string.
Variable os_walk : string -> list (string * list string * list string).

Lemma get_source_files_loop_elem (dir_ : string)
  (walk : list (string * list string * list string)) (acc found : list string)
  (p : string) :
  get_source_files_loop cwd dir_ walk acc = Ok found -> p ∈ found ->
  p ∈ acc
  \/ exists d ds fs rel f,
       (d, ds, fs) ∈ walk /\ relpath_start cwd d dir_ = Ok rel /\ f ∈ fs
       /\ snd (path.splitext f) = ".py" /\ p = path.normpath (path.join2 rel f).
Proof.
  revert acc. induction walk as [|[[d ds] fs] walk IH]; intros acc; simpl.
  - intros [= <-]. by left.
  - destruct (relpath_start cwd d dir_) as [rel|] eqn:Hrel; [simpl|done].
    intros Hloop Hp. destruct (IH _ Hloop Hp) as [Hacc|Hrest].
    + apply elem_of_app in Hacc as [Hacc|Hnew]; [by left|right].
      unfold python_files in Hnew. rewrite map_fmap in Hnew.
      apply list_elem_of_fmap in Hnew as (f & -> & [Hpy Hf]%list_elem_of_filter).
      exists d, ds, fs, rel, f. repeat split; try done. by left.
    + right. destruct Hrest as (d' & ds' & fs' & rel' & f & Hin & ?).
      exists d', ds', fs', rel', f. split; [by right|done].
Qed.

(** X20. Every path that [get_source_files] returns is relative, has the
    extension [.py], and ends with a file name that the walk has yielded
    with this extension, as long as the file names of the walk are plain
    names. *)
Theorem source_files_relative_python (dir_ : string) (found : list string)
  (p : string) :
  (forall d ds fs f, (d, ds, fs) ∈ os_walk dir_ -> f ∈ fs ->
     has_char path.sep f = false) ->
  get_source_files cwd os_walk dir_ = Ok found -> p ∈ found ->
  path.isabs p = false
  /\ snd (path.splitext p) = ".py"
  /\ exists d ds fs, (d, ds, fs) ∈ os_walk dir_ /\ path.basename p ∈ fs.
Proof.
  intros Hnames Hfound Hp. unfold get_source_files in Hfound.
  destruct (get_source_files_loop_elem _ _ _ _ _ Hfound Hp)
    as [?%elem_of_nil|(d & ds & fs & rel & f & Hin & Hrel & Hf & Hpy & ->)]; [done|].
  destruct (normpath_dir_file rel f) as (Habs & Hext & Hbase);
    [by eapply relpath_start_plain|by eapply Hnames|done|].
  repeat split; [done..|]. exists d, ds, fs. by rewrite Hbase.
Qed.

End SourceFiles.

Lemma source_files_relative_python_witness :
  path.isabs "pkg/n.py" = false /\ snd (path.splitext "pkg/n.py") = ".py".
Proof.
  destruct (source_files_relative_python Scenario.cwd Tree.walk_pkg "."
              ["pkg/m.py"; "pkg/n.py"] "pkg/n.py") as (H1 & H2 & _).
  - intros d ds fs f Hin Hf.
    apply list_elem_of_In in Hin. simpl in Hin.
    destruct Hin as [[= <- <- <-]|[[= <- <- <-]|[]]];
      apply list_elem_of_In in Hf; simpl in Hf;
      repeat (destruct Hf as [<-|Hf]; [reflexivity|]); destruct Hf.
  - vm_compute. reflexivity.
  - vm_compute. repeat constructor.
  - split; [exact H1|exact H2].
Defined.

(** ** A receiver without a class *)

Lemma enclosing_class_total (p : jedi.Name) :
  (exists cls, enclosing_class p = Ok cls) <->
  exists k cls, ancestor k p = Some cls /\ jedi.type cls = "class".
Proof.
  split.
  - intros [cls (k & Hk & Hc & _)%enclosing_class_nearest]. eauto.
  - intros (k & cls & Hk & Hc). revert p Hk.
    induction k as [|k IH]; intros p Hk; rewrite enclosing_class_unfold.
    + simpl in Hk. injection Hk as ->. rewrite Hc. eauto.
    + destruct (String.eqb (jedi.type p) "class"); [eauto|].
      simpl in Hk. destruct (jedi.parent p) as [q|]; [|done]. by apply IH.
Qed.

(** X21. For a statement named [self] directly in a function, the path
    resolver succeeds exactly when a scope of type class lies above the
    function; inside a function that no class encloses, the walk runs off
    the top of the scope chain and the resolver raises. *)
Theorem self_statement_needs_class (cwd : string) (def_ p : jedi.Name) :
  jedi.in_builtin_module def_ = false ->
  jedi.type def_ = "statement" ->
  jedi.name def_ = "self" ->
  jedi.parent def_ = Some p ->
  jedi.type p = "function" ->
  ((exists r, full_name_of_def cwd def_ false = Ok r) <->
   exists k cls, ancestor k p = Some cls /\ jedi.type cls = "class")
  /\ ((forall k cls, ancestor k p = Some cls -> jedi.type cls <> "class") ->
      full_name_of_def cwd def_ false
      = Raise (AttributeError "NoneType object has no attribute name")).
Proof.
  intros Hb Ht Hn Hp Hf.
  assert (Hfn : full_name_of_def cwd def_ false
                = let* parent := enclosing_class p in
                  path.join [Str.replace "/" "." (supermodule_path (jedi.module_path def_));
                             jedi.full_name parent +:+ "." +:+ jedi.name def_]).
  { unfold full_name_of_def, jedi.call_parent. rewrite Hb, Ht, Hp, Hn.
    change (String.eqb "statement" "statement") with true.
    change (String.eqb "self" "self") with true.
    cbn [bind]. rewrite Hf.
    change (String.eqb "function" "function") with true. cbn [andb].
    by destruct (enclosing_class p). }
  split; [split|].
  - intros [r Hr]. apply enclosing_class_total. rewrite Hfn in Hr.
    destruct (enclosing_class p); [eauto|done].
  - intros [cls Hcls]%enclosing_class_total. rewrite Hfn, Hcls. simpl. eauto.
  - intros Hnone. rewrite Hfn.
    assert (Hraise : forall q, (forall k cls, ancestor k q = Some cls ->
                                  jedi.type cls <> "class") ->
              enclosing_class q
              = Raise (AttributeError "NoneType object has no attribute name")).
    { induction q as [q IH] using Name_parent_ind. intros Hq.
      rewrite enclosing_class_unfold.
      rewrite (proj2 (String.eqb_neq _ _) (Hq O q eq_refl)).
      destruct (jedi.parent q) as [q'|] eqn:Hq'; [|done].
      apply IH; [done|]. intros k cls Hk. apply (Hq (S k)). simpl. by rewrite Hq'. }
    by rewrite Hraise.
Qed.

(** A function of the module [m] that assigns to a variable [self]. *)
Lemma self_statement_needs_class_witness :
  full_name_of_def Scenario.cwd
    (jedi.mkName true "statement" "self" 2 4 "pkg/m.py" "m.f"
       (Some (jedi.mkName true "function" "f" 1 4 "pkg/m.py" "m.f"
                (Some Scenario.mod_m) "" false)) "" false) false
  = Raise (AttributeError "NoneType object has no attribute name").
Proof.
  refine (proj2 (self_statement_needs_class Scenario.cwd
                   (jedi.mkName true "statement" "self" 2 4 "pkg/m.py" "m.f"
                      (Some (jedi.mkName true "function" "f" 1 4 "pkg/m.py" "m.f"
                               (Some Scenario.mod_m) "" false)) "" false)
                   (jedi.mkName true "function" "f" 1 4 "pkg/m.py" "m.f"
                      (Some Scenario.mod_m) "" false)
                   eq_refl eq_refl eq_refl eq_refl eq_refl) _).
  intros [|[|[|k]]] cls Hk; simpl in Hk; try discriminate;
    injection Hk as <-; discriminate.
Defined.
